(** * fadge: the GRRT session of [mod/fadge/core.py]

    A shallow embedding of the class [GRRT] (session configuration, the
    [set_*] initial-condition builders and the integration entry point
    [geode]) together with the properties of its specification.

    Numbers.  Python scalars and JAX scalars are modelled as exact reals
    extended with the not-a-number value: arithmetic propagates [NaN],
    every comparison with [NaN] is false, and [np.sqrt] of a negative number
    is [NaN].  Rounding and overflow are not modelled there.  Where
    rounding decides between a number and not-a-number, as it does for the
    horizon radius of [__init__], the arithmetic is also given on IEEE
    floats ([IEEE], [init_ieee]). *)

From Stdlib Require Import Reals Lra ZArith QArith Qreals SpecFloat.
From stdpp Require Import gmap strings list.

(** ** Numbers with NaN *)

Module Num.

Inductive number : Type :=
| NaN
| Real (r : R).

#[global] Instance Rle_decision (x y : R) : Decision (x <= y)%R := Rle_dec x y.

Definition lift2 (f : R → R → R) (a b : number) : number :=
  match a, b with
  | Real x, Real y => Real (f x y)
  | _, _ => NaN
  end.

Definition add : number → number → number := lift2 Rplus.
Definition sub : number → number → number := lift2 Rminus.
Definition mul : number → number → number := lift2 Rmult.


(** Python's [abs]. *)
Definition abs (a : number) : number :=
  match a with Real x => Real (Rabs x) | NaN => NaN end.

(** [np.sqrt]: not-a-number outside the domain, no exception. *)
Definition sqrt (a : number) : number :=
  match a with
  | Real x => if decide (0 <= x)%R then Real (R_sqrt.sqrt x) else NaN
  | NaN => NaN
  end.

(** [a <= b] and [a >= b]: false as soon as one side is not a number. *)
Definition le (a b : number) : bool :=
  match a, b with
  | Real x, Real y => bool_decide (x <= y)%R
  | _, _ => false
  end.

Definition ge (a b : number) : bool := le b a.

(** [a > b]. *)
Definition gt (a b : number) : bool :=
  match a, b with
  | Real x, Real y => negb (bool_decide (x <= y)%R)
  | _, _ => false
  end.

(** [np.isnan]. *)
Definition isnan (a : number) : bool :=
  match a with NaN => true | Real _ => false end.

(** [np.radians]. *)
Definition radians (a : number) : number :=
  mul a (Real (PI / 180)).

End Num.

Export Num.

Declare Scope num_scope.
Delimit Scope num_scope with num.
Bind Scope num_scope with number.
Infix "+" := Num.add : num_scope.
Infix "-" := Num.sub : num_scope.
Infix "*" := Num.mul : num_scope.
Infix "<=?" := Num.le : num_scope.
Infix ">=?" := Num.ge : num_scope.
Infix ">?" := Num.gt : num_scope.

(** Python literals. *)
Definition lit (z : Z) : number := Real (IZR z).
Definition lit_frac (n d : Z) : number := Real (IZR n / IZR d).

(** ** Arrays *)

(** A 4-vector [x = (x[0], x[1], x[2], x[3])]. *)
Record vec4 : Type := Vec4 { x0 : number; x1 : number; x2 : number; x3 : number }.

(** The state of one ray, [s = [x, v]]: [s[0]] is the position and [s[1]]
    the velocity. *)
Definition state : Type := (vec4 * vec4)%type.

(** An array over batch axes: its shape and its elements in row-major
    order.  A scalar has shape [[]] and one element. *)
Record ndarray (A : Type) : Type := NdArray { shape : list nat; data : list A }.
Arguments NdArray {A} shape data.
Arguments shape {A} _.
Arguments data {A} _.

Definition size_of (sh : list nat) : nat := foldr Nat.mul 1 sh.

Definition well_formed {A} (a : ndarray A) : Prop :=
  length (data a) = size_of (shape a).

(** A single element as a batch of rank 0. *)
Definition scalar {A} (x : A) : ndarray A := NdArray [] [x].

(** [f] applied to each element of the batch on its own, the axes kept in
    place. *)
Definition map_batch {A B} (f : A → B) (a : ndarray A) : ndarray B :=
  NdArray (shape a) (f <$> data a).

(** The elements at the positions [idx], in that order, under the same
    shape ([a.reshape(-1)[idx].reshape(a.shape)] for a permutation [idx]). *)
Definition take {A} (idx : list nat) (a : ndarray A) : ndarray A :=
  NdArray (shape a) (omap (λ k, data a !! k) idx).

(** ** Values, exceptions and printed lines *)

(** The [dtype] tag of a session ([np.float32] by default). *)
Inductive dtype : Type := float16 | float32 | float64.

(** What a keyword argument can hold.  The functions that [geode] builds
    are kept as closures over the values they capture; [call_closure]
    below runs them. *)
Inductive value : Type :=
| VNone
| VBool (b : bool)
| VNum (x : number)
| VSeq (xs : list number)
| VDtype (d : dtype)
| VFun (f : closure)
with closure : Type :=
| Hupper_KSr (fhupper : value)   (* lambda l, s: self.KSr(s[0]) * fhupper + 1 *)
| Hlower_const (fhlower : value) (* lambda l, s: fhlower *)
| Filter_KSd (eps : value)       (* lambda l, s: self.KSd(s[0]) >= eps *)
| Filter_KSr (eps : value)       (* lambda l, s: self.KSr(s[0]) >= self.reh + eps *)
| User_fn (name : string).       (* a callable supplied by the caller *)

Inductive exn : Type :=
| KeyError (key : string)
| AttributeError (what : string)
| TypeError (what : string)
| ValueError (what : string)
| ZeroDivisionError (what : string)
| Failure (what : string).

Inductive result (A : Type) : Type :=
| Ok (a : A)
| Raise (e : exn).
Arguments Ok {A} a.
Arguments Raise {A} e.

Definition raised {A} (r : result A) : Prop :=
  match r with Raise _ => True | Ok _ => False end.

(** [xmap f] over every axis of the batch.  JAX tiles each mapped axis by
    its own size: an axis of size 0 makes it raise [ZeroDivisionError];
    otherwise [f] is applied to each element on its own. *)
Definition xmap {A B} (f : A → B) (a : ndarray A) : result (ndarray B) :=
  if decide (0 ∈ shape a) then Raise (ZeroDivisionError "xmap")
  else Ok (map_batch f a).

(** The lines written by [print]. *)
Inductive message : Type :=
| Radius_of_outer_event_horizon (reh : number)
| Horizon_penetrating
| There_is_no_event_horizon
| Warning_ignore_kwargs.

(** ** Dictionaries *)

Abbreviation dict := (gmap string value).

(** [{**base, **over}]: the rightmost mapping wins. *)
Definition merge_dict (base over : dict) : dict := over ∪ base.

(** [d.pop(k, dflt)]. *)
Definition pop_default (k : string) (dflt : value) (d : dict) : value * dict :=
  (default dflt (d !! k), delete k d).

(** [d.pop(k)]. *)
Definition pop (k : string) (d : dict) : result (value * dict) :=
  match d !! k with
  | Some v => Ok (v, delete k d)
  | None => Raise (KeyError k)
  end.

(** ** The collaborators of the session *)

(** Modelled from the spec: the modules [fadge.metric], [fadge.utils],
    [fadge.icond] and [fadge.geode], which [core.py] imports and which are
    not among the sources.  [KerrSchild], [Nullify], [Normalize], [cam] and
    [sphorbit] are the metric, the constraint solver and the ray generator
    of the specification; [Geode] is the integrator with its constructor,
    its [extend] operation, its record [(lambdas, states)] and its call
    [g(L, N=N)], the evaluate operation.  Nothing is assumed of what they
    compute. *)
Class Collaborators : Type := {
  Metric : Type;
  KerrSchild : number → number → Metric;
  Nullify : Metric → vec4 → vec4 → vec4;
  Normalize : Metric → vec4 → vec4 → vec4;
  cam : number * number * number → number * number → vec4 * vec4;
  sphorbit : number → number → vec4 * vec4;
  Geode : Type;
  Geode_new : Metric → number → ndarray state → dict → result Geode;
  Geode_extend : Geode → value → value → result Geode;
  Geode_lambdas : Geode → list number;
  Geode_states : Geode → list (ndarray state);
  Geode_call : Geode → value → value → result (list (ndarray state));
}.

(** ** The session *)

Section Session.
Context `{Collaborators}.

Record GRRT : Type := Build_GRRT {
  aspin : number;
  qcharge : number;
  dtype_ : dtype;
  kwargs : dict;
  metric : Metric;
  reh : number;
  _geode : option Geode;
  _ic : option (ndarray state);
  KSr : vec4 → number;
  KSd : vec4 → number;
  rij : option (number * number * number);
}.

(** [self.nullify = Nullify(self.metric)], [self.normalize = Normalize(self.metric)]. *)
Definition nullify (self : GRRT) : vec4 → vec4 → vec4 := Nullify (metric self).
Definition normalize (self : GRRT) : vec4 → vec4 → vec4 := Normalize (metric self).

(** The closure [KSr] of [__init__], over [aa]. *)
Definition KSr_closure (aa : number) (x : vec4) : number :=
  let zz := (x3 x * x3 x)%num in
  let kk := (lit_frac 1 2 * (x1 x * x1 x + x2 x * x2 x + zz - aa))%num in
  let rr := (Num.sqrt (kk * kk + aa * zz) + kk)%num in
  Num.sqrt rr.

(** The closure [KSd] of [__init__], over [aspin]. *)
Definition KSd_closure (aspin : number) (x : vec4) : number :=
  let dR := (Num.sqrt (x1 x * x1 x + x2 x * x2 x) - Num.abs aspin)%num in
  Num.sqrt (dR * dR + x3 x * x3 x)%num.

(** [GRRT.__init__]: the new session and the lines it prints. *)
Definition init (aspin qcharge : number) (hp : bool) (dt : dtype) (kwargs : dict)
  : GRRT * list message :=
  let aa := (aspin * aspin)%num in
  let qq := (qcharge * qcharge)%num in
  let horizon : number * list message :=
    if (aa <=? lit 1)%num then
      let reh := (lit 1 + Num.sqrt (lit 1 - aa - qq))%num in
      if hp then (NaN, [Radius_of_outer_event_horizon reh; Horizon_penetrating])
      else (reh, [Radius_of_outer_event_horizon reh])
    else (NaN, [There_is_no_event_horizon]) in
  ({| aspin := aspin; qcharge := qcharge; dtype_ := dt; kwargs := kwargs;
      metric := KerrSchild aspin qcharge;
      reh := horizon.1; _geode := None; _ic := None;
      KSr := KSr_closure aa; KSd := KSd_closure aspin; rij := None |},
   horizon.2).

(** *** Attribute assignment *)

Definition with_kwargs (d : dict) (self : GRRT) : GRRT :=
  {| aspin := aspin self; qcharge := qcharge self; dtype_ := dtype_ self;
     kwargs := d; metric := metric self; reh := reh self;
     _geode := _geode self; _ic := _ic self;
     KSr := KSr self; KSd := KSd self; rij := rij self |}.

Definition with_ic (ic : option (ndarray state)) (self : GRRT) : GRRT :=
  {| aspin := aspin self; qcharge := qcharge self; dtype_ := dtype_ self;
     kwargs := kwargs self; metric := metric self; reh := reh self;
     _geode := _geode self; _ic := ic;
     KSr := KSr self; KSd := KSd self; rij := rij self |}.

Definition with_geode (g : option Geode) (self : GRRT) : GRRT :=
  {| aspin := aspin self; qcharge := qcharge self; dtype_ := dtype_ self;
     kwargs := kwargs self; metric := metric self; reh := reh self;
     _geode := g; _ic := _ic self;
     KSr := KSr self; KSd := KSd self; rij := rij self |}.

Definition with_rij (r : number * number * number) (self : GRRT) : GRRT :=
  {| aspin := aspin self; qcharge := qcharge self; dtype_ := dtype_ self;
     kwargs := kwargs self; metric := metric self; reh := reh self;
     _geode := _geode self; _ic := _ic self;
     KSr := KSr self; KSd := KSd self; rij := Some r |}.

(** *** Methods

    A method runs on the session object and yields its result or the
    exception it raises, the object as the method leaves it (what was
    assigned before an exception stays assigned) and the lines printed. *)

Definition M (A : Type) : Type := GRRT → result A * GRRT * list message.

#[global] Instance M_ret : MRet M := λ A a self, (Ok a, self, []).

#[global] Instance M_bind : MBind M := λ A B k m self,
  match m self with
  | (Ok a, self', out) =>
      let '(r, self'', out') := k a self' in (r, self'', out ++ out')
  | (Raise e, self', out) => (Raise e, self', out)
  end.

Definition get : M GRRT := λ self, (Ok self, self, []).
Definition modify (f : GRRT → GRRT) : M unit := λ self, (Ok tt, f self, []).
Definition print (m : message) : M unit := λ self, (Ok tt, self, [m]).
Definition lift {A} (r : result A) : M A := λ self, (r, self, []).
Definition raise {A} (e : exn) : M A := lift (Raise e).

(** The three projections of a run. *)
Definition outcome {A} (r : result A * GRRT * list message) : result A := r.1.1.
Definition after {A} (r : result A * GRRT * list message) : GRRT := r.1.2.
Definition printed {A} (r : result A * GRRT * list message) : list message := r.2.

(** The defaults that [set_particle], [set_photon] and [set_sphorbit] put
    under the session's keyword arguments. *)
Definition ray_defaults : dict :=
  {[ "L" := VNum (lit 100); "h" := VNum (lit 1) ]}.

Definition set_particle (x v : vec4) : M unit :=
  self ← get;
  modify (with_ic (Some (scalar (x, normalize self x v))));;
  self ← get;
  modify (with_kwargs (merge_dict ray_defaults (kwargs self))).

Definition set_photon (x v : vec4) : M unit :=
  self ← get;
  modify (with_ic (Some (scalar (x, nullify self x v))));;
  self ← get;
  modify (with_kwargs (merge_dict ray_defaults (kwargs self))).

Definition set_sphorbit (r : number) : M unit :=
  self ← get;
  let s := sphorbit (aspin self) r in
  modify (with_ic (Some (scalar (s.1, nullify self s.1 s.2))));;
  self ← get;
  modify (with_kwargs (merge_dict ray_defaults (kwargs self))).

(** The defaults of [set_cam]: [{'L': -2*r_obs, 'h': 0.75*r_obs}]. *)
Definition cam_defaults (r_obs : number) : dict :=
  {[ "L" := VNum (lit (-2) * r_obs)%num; "h" := VNum (lit_frac 3 4 * r_obs)%num ]}.

Definition set_cam (r_obs i_obs j_obs : number) : M unit :=
  modify (with_rij (r_obs, radians i_obs, radians j_obs));;
  self ← get;
  modify (with_kwargs (merge_dict (cam_defaults r_obs) (kwargs self))).

(** [np.array([a, b])]: the two arrays side by side, element by element;
    arrays of different shapes cannot be put together. *)
Definition stack2 (a b : ndarray number) : result (ndarray (number * number)) :=
  if decide (shape a = shape b)
  then Ok (NdArray (shape a) (zip (data a) (data b)))
  else Raise (ValueError "shape").

(** The function [ic] of [set_pixels], a closure on [self.rij] and
    [self.nullify]. *)
Definition ic (self : GRRT) (r : number * number * number) (ab : number * number) : state :=
  let s := cam r ab in
  (s.1, nullify self s.1 s.2).

Definition set_pixels (a b : ndarray number) : M unit :=
  ab ← lift (stack2 a b);
  self ← get;
  match rij self with
  | None => raise (AttributeError "rij")
  | Some r =>
      batch ← lift (xmap (ic self r) ab);
      modify (with_ic (Some batch))
  end.

(** *** The integration entry point *)

Definition is_none (v : value) : bool :=
  match v with VNone => true | _ => false end.

(** Whether [len(v)] succeeds. *)
Definition has_len (v : value) : bool :=
  match v with VSeq _ => true | _ => false end.

(** [k in d]. *)
Definition has_key (k : string) (d : dict) : bool :=
  bool_decide (is_Some (d !! k)).

(** [d[k]]. *)
Definition getitem (k : string) (d : dict) : result value :=
  match d !! k with
  | Some v => Ok v
  | None => Raise (KeyError k)
  end.

(** [{'dtype': self.dtype, **self.kwargs, **kwargs}]. *)
Definition compose_kwargs (self : GRRT) (kwargs0 : dict) : dict :=
  merge_dict (merge_dict {[ "dtype" := VDtype (dtype_ self) ]} (kwargs self)) kwargs0.

(** Lines 125 to 138 of [geode]: the step bounds and the continuation
    filter that the caller did not give. *)
Definition install_policies (self : GRRT) (kwargs : dict) : dict :=
  let '(fhupper, kwargs) := pop_default "fhupper" (VNum (lit_frac 3 4)) kwargs in
  let kwargs :=
    if has_key "hupper" kwargs then kwargs
    else <["hupper" := VFun (Hupper_KSr fhupper)]> kwargs in
  let '(fhlower, kwargs) := pop_default "fhlower" VNone kwargs in
  let kwargs :=
    if negb (has_key "hlower" kwargs) && negb (is_none fhlower)
    then <["hlower" := VFun (Hlower_const fhlower)]> kwargs
    else kwargs in
  let '(eps, kwargs) := pop_default "eps" (VNum (lit_frac 1 100)) kwargs in
  if has_key "filter" kwargs then kwargs
  else if isnan (reh self)
       then <["filter" := VFun (Filter_KSd eps)]> kwargs
       else <["filter" := VFun (Filter_KSr eps)]> kwargs.

(** The first block of [geode], up to the call of the constructor: the
    keyword arguments handed to [Geode]. *)
Definition geode_kwargs (self : GRRT) (L : value) (kwargs0 : dict) : result dict :=
  let kwargs := compose_kwargs self kwargs0 in
  if is_none L then Ok (install_policies self kwargs)
  else match pop "L" kwargs with
       | Ok p => Ok (install_policies self p.2)
       | Raise e => Raise e
       end.

(** What [geode] returns: [(lambdas, states)] of the integrator after
    [extend], or the states that the integrator returns when called. *)
Inductive geode_result : Type :=
| Trajectory (lambdas : list number) (states : list (ndarray state))
| Samples (states : list (ndarray state)).

(** The second block of [geode]: extend by a scalar, sample at a sequence. *)
Definition dispatch (L N : value) : M geode_result :=
  L ← (if is_none L then self ← get; lift (getitem "L" (kwargs self)) else mret L);
  self ← get;
  if has_len L then
    match _geode self with
    | None => raise (TypeError "'NoneType' object is not callable")
    | Some g => r ← lift (Geode_call g L N); mret (Samples r)
    end
  else
    match _geode self with
    | None => raise (AttributeError "'NoneType' object has no attribute 'extend'")
    | Some g =>
        g' ← lift (Geode_extend g L N);
        modify (with_geode (Some g'));;
        mret (Trajectory (Geode_lambdas g') (Geode_states g'))
    end.

(** The first block of [geode]: a staged batch is consumed into a new
    integrator; without one, keyword arguments are ignored with a warning. *)
Definition prepare (L : value) (kwargs0 : dict) : M unit :=
  self ← get;
  match _ic self with
  | Some ic0 =>
      kwargs ← lift (geode_kwargs self L kwargs0);
      g ← lift (Geode_new (metric self) (lit 0) ic0 kwargs);
      modify (with_geode (Some g));;
      modify (with_ic None)
  | None =>
      if decide (0 < size kwargs0) then print Warning_ignore_kwargs else mret tt
  end.

Definition geode (L N : value) (kwargs0 : dict) : M geode_result :=
  prepare L kwargs0;;
  dispatch L N.

(** *** Running the closures *)

(** A value as an operand of arithmetic and of comparisons: a number, or a
    [bool], which Python takes for 1 or 0. *)
Definition as_number (v : value) : option number :=
  match v with
  | VNum x => Some x
  | VBool b => Some (if b then lit 1 else lit 0)
  | _ => None
  end.

(** [f(l, s)] for a function that [geode] installed, on the state of one
    ray; [None] for a callable of the caller, which this module never runs. *)
Definition call_closure (self : GRRT) (f : closure) (l : number) (s : state)
  : option (result value) :=
  match f with
  | Hupper_KSr fhupper =>
      match as_number fhupper with
      | Some fh => Some (Ok (VNum (KSr self s.1 * fh + lit 1)%num))
      | None => Some (Raise (TypeError "fhupper"))
      end
  | Hlower_const fhlower => Some (Ok fhlower)
  | Filter_KSd eps =>
      match as_number eps with
      | Some e => Some (Ok (VBool (KSd self s.1 >=? e)%num))
      | None => Some (Raise (TypeError "eps"))
      end
  | Filter_KSr eps =>
      match as_number eps with
      | Some e => Some (Ok (VBool (KSr self s.1 >=? reh self + e)%num))
      | None => Some (Raise (TypeError "eps"))
      end
  | User_fn _ => None
  end.

(** *** Sessions in use *)

Inductive call : Type :=
| Set_particle (x v : vec4)
| Set_photon (x v : vec4)
| Set_sphorbit (r : number)
| Set_cam (r_obs i_obs j_obs : number)
| Set_pixels (a b : ndarray number)
| Call_geode (L N : value) (kwargs0 : dict).

Definition is_set (c : call) : bool :=
  match c with Call_geode _ _ _ => false | _ => true end.

(** The calls that assign [self._ic]. *)
Definition stages (c : call) : bool :=
  match c with Set_cam _ _ _ | Call_geode _ _ _ => false | _ => true end.

(** One call on the session: whether it returned, the session after it and
    the lines it printed. *)
Definition step (self : GRRT) (c : call) : result unit * GRRT * list message :=
  match c with
  | Set_particle x v => set_particle x v self
  | Set_photon x v => set_photon x v self
  | Set_sphorbit r => set_sphorbit r self
  | Set_cam r i j => set_cam r i j self
  | Set_pixels a b => set_pixels a b self
  | Call_geode L N kw => (geode L N kw ≫= λ _, mret tt) self
  end.

(** The session after a sequence of calls; a caller may go on after a call
    that raised. *)
Definition run (cs : list call) (self : GRRT) : GRRT :=
  foldl (λ s c, after (step s c)) self cs.

End Session.

(** ** A stand-in for the collaborators

    The simplest collaborators with which a session runs from end to end:
    the constraint solver hands the velocity back, the ray generator
    places the ray on the first axis, and the integrator keeps the record
    [(lambdas, states)], adding one entry when extended by a number. *)

Module Standin.

Record geode_record : Type := Record_ {
  rec_lambdas : list number;
  rec_states : list (ndarray state);
}.

Definition origin : vec4 := Vec4 (lit 0) (lit 0) (lit 0) (lit 0).

Definition extend (g : geode_record) (L N : value) : result geode_record :=
  match L with
  | VNum l =>
      Ok (Record_ (rec_lambdas g ++ [(default (lit 0) (last (rec_lambdas g)) + l)%num])
                  (rec_states g ++ [default (scalar (origin, origin)) (last (rec_states g))]))
  | _ => Raise (TypeError "L")
  end.

Definition at_ (g : geode_record) (N : value) (l : number) : result (ndarray state) :=
  match last (rec_states g) with
  | Some s => Ok s
  | None => Raise (Failure "empty")
  end.

Fixpoint at_each (g : geode_record) (N : value) (ls : list number)
  : result (list (ndarray state)) :=
  match ls with
  | [] => Ok []
  | l :: ls =>
      match at_ g N l with
      | Raise e => Raise e
      | Ok y =>
          match at_each g N ls with Raise e => Raise e | Ok ys => Ok (y :: ys) end
      end
  end.

Definition call_ (g : geode_record) (L N : value) : result (list (ndarray state)) :=
  match L with
  | VSeq ls => at_each g N ls
  | _ => Raise (TypeError "L")
  end.

#[export] Instance collaborators : Collaborators := {|
  Metric := number * number;
  KerrSchild := λ a q, (a, q);
  Nullify := λ _ _ v, v;
  Normalize := λ _ _ v, v;
  cam := λ r ab, (Vec4 (lit 0) r.1.1 ab.1 ab.2, Vec4 (lit 1) (lit (-1)) (lit 0) (lit 0));
  sphorbit := λ a r, (Vec4 (lit 0) r (lit 0) (lit 0), Vec4 (lit 1) (lit 0) (lit 1) (lit 0));
  Geode := geode_record;
  Geode_new := λ _ l0 ic0 _, Ok (Record_ [l0] [ic0]);
  Geode_extend := extend;
  Geode_lambdas := rec_lambdas;
  Geode_states := rec_states;
  Geode_call := call_;
|}.

End Standin.

(** ** The pixel grids of [set_image], [set_axis] and [set_ring] *)

(** Division, sine and cosine of numbers.  The divisors below are the
    length of a range that is not empty, or the constant 180: no division
    by zero takes place. *)
Definition ndiv : number → number → number := Num.lift2 Rdiv.
Definition nsin (a : number) : number :=
  match a with Real x => Real (sin x) | NaN => NaN end.
Definition ncos (a : number) : number :=
  match a with Real x => Real (cos x) | NaN => NaN end.

Definition of_nat (n : nat) : number := Real (INR n).

(** [np.pi]. *)
Definition pi : number := Real PI.

(** [np.arange(n)] as a list. *)
Definition arange (n : nat) : list number := of_nat <$> seq 0 n.

(** A list as an array of one axis. *)
Definition array1 {A} (l : list A) : ndarray A := NdArray [length l] l.

(** [fov * ((np.arange(n) + 0.5) / n - 0.5)]: the centres of [n] pixels
    across a field of view. *)
Definition pixel_centres (fov : number) (n : nat) : list number :=
  (λ i, fov * (ndiv (i + lit_frac 1 2) (of_nat n) - lit_frac 1 2))%num <$> arange n.

(** [np.meshgrid(xs, ys, indexing='ij')]: [a[i, j] = xs[i]] and
    [b[i, j] = ys[j]]. *)
Definition meshgrid_ij (xs ys : list number) : ndarray number * ndarray number :=
  (NdArray [length xs; length ys] (x ← xs; replicate (length ys) x),
   NdArray [length xs; length ys] (concat (replicate (length xs) ys))).

Section Grids.
Context `{Collaborators}.

Definition set_image (fov : number) (n : nat) (alpha0 beta0 : number) : M unit :=
  let axes := pixel_centres fov n in
  let ab := meshgrid_ij ((λ x, x + alpha0)%num <$> axes) ((λ x, x + beta0)%num <$> axes) in
  set_pixels ab.1 ab.2.

Definition set_axis (fov : number) (n : nat) (PA alpha0 : number) : M unit :=
  let r := (λ x, x + alpha0)%num <$> pixel_centres fov n in
  let a := (λ x, x * nsin (ndiv (PA * pi) (lit 180)))%num <$> r in
  let b := (λ x, x * ncos (ndiv (PA * pi) (lit 180)))%num <$> r in
  set_pixels (array1 a) (array1 b).

Definition set_ring (r : number) (n : nat) : M unit :=
  let phi := (λ i, ndiv (lit 2 * pi * i) (of_nat n))%num <$> arange n in
  let a := (λ p, r * ncos p)%num <$> phi in
  let b := (λ p, r * nsin p)%num <$> phi in
  set_pixels (array1 a) (array1 b).

End Grids.

(** ** A stand-in whose integrator cannot be built

    The collaborators of [Standin], with a constructor that always
    raises. *)

Module Refusing.

#[export] Instance collaborators : Collaborators := {|
  Metric := number * number;
  KerrSchild := λ a q, (a, q);
  Nullify := λ _ _ v, v;
  Normalize := λ _ _ v, v;
  cam := cam (Collaborators := Standin.collaborators);
  sphorbit := sphorbit (Collaborators := Standin.collaborators);
  Geode := Standin.geode_record;
  Geode_new := λ _ _ _ _, Raise (Failure "Geode");
  Geode_extend := Standin.extend;
  Geode_lambdas := Standin.rec_lambdas;
  Geode_states := Standin.rec_states;
  Geode_call := Standin.call_;
|}.

End Refusing.

(** ** The horizon radius in floating point

    [__init__] as Python and JAX run it on floating-point numbers.  The
    spin and the charge are Python floats, IEEE doubles: the products
    [aspin * aspin] and [qcharge * qcharge], the test [aa <= 1] and the
    difference [1 - aa - qq] are double arithmetic, each operation rounded
    to nearest even.  [np.sqrt] is JAX's: it takes the difference as a
    single-precision number and returns one, and [1.0 + np.sqrt(...)] is
    single precision too, as JAX has it by default (64-bit types off).
    The operations are those of the IEEE specification of the Standard
    Library, at the precisions 53 and 24, with subnormal numbers. *)

Module IEEE.







(** The rational number that a finite float is; 0 for the others. *)
Definition value (x : spec_float) : Q :=
  match x with
  | S754_finite s m e => (inject_Z (cond_Zopp s (Zpos m)) * 2 ^ e)%Q
  | _ => 0%Q
  end.





End IEEE.

Section InitIEEE.
Context `{Collaborators}.


End InitIEEE.

(** ** Notions used in the properties *)

Section Notions.
Context `{Collaborators}.

(** The part of a session that is fixed when it is built. *)
Definition same_geometry (s s' : GRRT) : Prop :=
  aspin s' = aspin s ∧ qcharge s' = qcharge s ∧ dtype_ s' = dtype_ s ∧
  metric s' = metric s ∧ reh s' = reh s ∧ KSr s' = KSr s ∧ KSd s' = KSd s.

(** A batch of initial conditions is staged. *)
Definition pending (s : GRRT) : Prop := is_Some (_ic s).

(** The session holds an integrator. *)
Definition integrating (s : GRRT) : Prop := is_Some (_geode s).

(** Once a batch is staged or the camera is set, ['L'] has a default. *)
Definition staged_has_L (s : GRRT) : Prop :=
  is_Some (_ic s) ∨ is_Some (rij s) → is_Some (kwargs s !! "L").


(** Exactly one of the two holds. *)
Definition exactly_one (s : GRRT) : Prop :=
  (pending s ∧ ¬ integrating s) ∨ (¬ pending s ∧ integrating s).

End Notions.

(** [new] is [old] with the keys of [defaults] that [old] lacks: every key
    of [old] keeps its value, every other key takes the one of [defaults]. *)
Definition keeps_and_fills (defaults old new : dict) : Prop :=
  (∀ k w, old !! k = Some w → new !! k = Some w) ∧
  (∀ k, old !! k = None → new !! k = defaults !! k).

(** Two numbers within [tol] of each other; not-a-number is close to
    nothing. *)
Definition close_to (tol : R) (a b : number) : Prop :=
  match a, b with
  | Real u, Real v => (Rabs (u - v) <= tol)%R
  | _, _ => False
  end.

(** ** Proof steps *)

(** Unfolds a method down to the session it returns. *)
Ltac run_method :=
  cbv [step set_particle set_photon set_sphorbit set_cam set_pixels geode prepare
       dispatch mbind M_bind mret M_ret get modify print lift raise
       after outcome printed];
  cbn [fst snd].

(** Case analysis on a scrutinee that contains no other one. *)
Ltac case_scrutinee :=
  match goal with
  | |- context [match ?x with _ => _ end] =>
      lazymatch x with
      | context [match _ with _ => _ end] => fail
      | _ => destruct x eqn:?
      end
  end.

(** * Properties *)

(** ** Numbers *)

Lemma le_real (x y : R) : (Real x <=? Real y)%num = true ↔ (x <= y)%R.
Proof. unfold Num.le. apply bool_decide_eq_true. Qed.

Lemma gt_real (x y : R) : (Real x >? Real y)%num = true ↔ (x > y)%R.
Proof.
  unfold Num.gt. rewrite negb_true_iff, bool_decide_eq_false. lra.
Qed.

Lemma sqrt_real (x : R) : (0 <= x)%R → Num.sqrt (Real x) = Real (R_sqrt.sqrt x).
Proof. intros Hx. unfold Num.sqrt. by rewrite decide_True. Qed.

Lemma sqrt_negative (x : R) : (x < 0)%R → Num.sqrt (Real x) = NaN.
Proof. intros Hx. unfold Num.sqrt. rewrite decide_False; [done | lra]. Qed.

(** ** Floating-point operations

    Rounding a mantissa that is not negative never gives not-a-number, and
    keeps the sign it is given. *)













(** ** The horizon radius of a new session *)

Section HorizonIEEE.
Context `{Collaborators}.
Variables (a q : spec_float) (hp : bool) (dt : dtype) (kw : dict).



End HorizonIEEE.

Section Horizon.
Context `{Collaborators}.
Variables (x y : R) (hp : bool) (dt : dtype) (kw : dict).

(** What [__init__] leaves in [self.reh], for a real spin [x] and a real
    charge [y]. *)
Lemma init_reh :
  reh (init (Real x) (Real y) hp dt kw).1 =
    if hp then NaN
    else if decide (x * x + y * y <= 1)%R
         then Real (1 + R_sqrt.sqrt (1 - x * x - y * y))
         else NaN.
Proof.
  unfold init, lit; cbn [fst reh Num.mul Num.sub Num.add lift2 Num.le].
  case_bool_decide as Haa.
  - destruct (decide (x * x + y * y <= 1)%R) as [Hh|Hh].
    + rewrite sqrt_real by lra. by destruct hp.
    + rewrite sqrt_negative by lra. by destruct hp.
  - rewrite decide_False by nra. by destruct hp.
Qed.

(** What [__init__] prints. *)
Lemma init_printed :
  (init (Real x) (Real y) hp dt kw).2 =
    if decide (x * x <= 1)%R
    then Radius_of_outer_event_horizon
           (if decide (x * x + y * y <= 1)%R
            then Real (1 + R_sqrt.sqrt (1 - x * x - y * y)) else NaN)
         :: (if hp then [Horizon_penetrating] else [])
    else [There_is_no_event_horizon].
Proof.
  unfold init, lit; cbn [snd Num.mul Num.sub Num.add lift2 Num.le].
  case_bool_decide as Haa.
  - rewrite decide_True by done.
    destruct (decide (x * x + y * y <= 1)%R) as [Hh|Hh].
    + rewrite sqrt_real by lra. by destruct hp.
    + rewrite sqrt_negative by lra. by destruct hp.
  - by rewrite decide_False.
Qed.

End Horizon.

(** ** What the calls leave alone *)

Section Frame.
Context `{Collaborators}.

Lemma same_geometry_refl s : same_geometry s s.
Proof. by repeat split. Qed.

Lemma same_geometry_trans s1 s2 s3 :
  same_geometry s1 s2 → same_geometry s2 s3 → same_geometry s1 s3.
Proof. unfold same_geometry. intros; destruct_and!; repeat split; congruence. Qed.

Lemma step_geometry s c : same_geometry s (after (step s c)).
Proof.
  destruct c; run_method; repeat (case_scrutinee; simplify_eq/=);
    by repeat split.
Qed.

Lemma run_geometry cs s : same_geometry s (run cs s).
Proof.
  revert s. induction cs as [|c cs IH]; intros s; [apply same_geometry_refl|].
  eapply same_geometry_trans; [apply step_geometry | apply IH].
Qed.

Lemma run_reh cs s : reh (run cs s) = reh s.
Proof. apply run_geometry. Qed.

End Frame.

(** ** The keyword arguments handed to the integrator *)

Section Kwargs.
Context `{Collaborators}.
Implicit Types (self : GRRT) (L : value) (m : dict).

(** [geode_kwargs] raises only on a missing ['L']. *)
Lemma geode_kwargs_ok self L kw :
  (is_none L = false → is_Some (compose_kwargs self kw !! "L")) →
  ∃ m, geode_kwargs self L kw = Ok m.
Proof.
  intros HL. unfold geode_kwargs, pop.
  destruct (is_none L) eqn:EL; [eauto|].
  destruct (HL eq_refl) as [v ->]. eauto.
Qed.



End Kwargs.

(** ** Consuming the staged batch *)

Section Prepare.
Context `{Collaborators}.
Implicit Types (self s : GRRT) (L : value).


Lemma init_has_L a q hp dt (kw : dict) : staged_has_L (init a q hp dt kw).1.
Proof. intros [[? [=]]|[? [=]]]. Qed.


Lemma merge_dict_has_L (base : dict) (d : dict) :
  is_Some (base !! "L") → is_Some (merge_dict base d !! "L").
Proof.
  intros Hb. unfold merge_dict. apply lookup_union_is_Some. by right.
Qed.

Lemma step_has_L s c : staged_has_L s → staged_has_L (after (step s c)).
Proof.
  unfold staged_has_L.
  destruct c; run_method; repeat (case_scrutinee; simplify_eq/=);
    try (intros _ _; by apply merge_dict_has_L);
    intros Hs Hor; apply Hs; clear Hs;
    repeat match goal with E : _ = _ |- _ => rewrite E in *; clear E end;
    destruct Hor as [Hor|Hor];
    first [by left | by right | left; by eexists | right; by eexists
          | by destruct Hor].
Qed.

Lemma run_has_L cs s : staged_has_L s → staged_has_L (run cs s).
Proof.
  revert s. induction cs as [|c cs IH]; intros s Hs; [done|].
  apply IH, step_has_L, Hs.
Qed.

End Prepare.

(** ** The continuation filter (C1) *)

Section Filter.
Context `{Collaborators}.

Lemma compose_kwargs_has_L (self : GRRT) (kw : dict) :
  is_Some (kwargs self !! "L") → is_Some (compose_kwargs self kw !! "L").
Proof.
  intros HL. unfold compose_kwargs, merge_dict.
  apply lookup_union_is_Some. right. apply lookup_union_is_Some. by left.
Qed.



End Filter.



(** ** The horizon radius (C3) and its report (C2) *)




(** C2, at spin 1/2 and charge 1, where [spin² + charge² = 5/4 > 1]:
    [__init__] prints the line of the horizon radius, with not-a-number
    for the radius, and does not print that there is no horizon. *)
Theorem radius_reported_without_horizon :
  (1/2 * (1/2) + 1 * 1 > 1)%R ∧
  (init (H := Standin.collaborators) (Real (1/2)) (Real 1) false float32 ∅).2
    = [Radius_of_outer_event_horizon NaN].
Proof.
  split; [lra|].
  rewrite init_printed.
  rewrite decide_True by lra. by rewrite decide_False by lra.
Qed.

(** The lines of [__init__] follow [spin² <= 1] alone: the radius is
    printed exactly when [x² <= 1], and the absence of a horizon exactly
    when [x² > 1], whatever the charge. *)
Lemma init_report_follows_spin `{Collaborators} (x y : R) hp dt (kw : dict) :
  ((∃ r, Radius_of_outer_event_horizon r ∈ (init (Real x) (Real y) hp dt kw).2)
     ↔ (x * x <= 1)%R)
  ∧ (There_is_no_event_horizon ∈ (init (Real x) (Real y) hp dt kw).2
     ↔ (x * x > 1)%R).
Proof.
  rewrite init_printed. destruct (decide (x * x <= 1)%R) as [Hx|Hx]; split; split.
  - done.
  - intros _. eexists. apply elem_of_cons. by left.
  - intros Hin. apply elem_of_cons in Hin. destruct Hin as [?|Hhp]; [done|].
    destruct hp.
    + apply list_elem_of_singleton in Hhp. done.
    + by apply elem_of_nil in Hhp.
  - lra.
  - intros [r Hr]. by apply list_elem_of_singleton in Hr.
  - done.
  - lra.
  - intros _. by apply list_elem_of_singleton.
Qed.

(** ** The radial coordinate on the equatorial plane (C7) *)

(** On the equatorial plane, outside the ring of radius [|a|], [KSr] is
    [sqrt(x1² + x2² - a²)]. *)
Lemma KSr_equatorial (a u v : R) (t : number) :
  (a * a <= u * u + v * v)%R →
  KSr_closure (Real (a * a)) (Vec4 t (Real u) (Real v) (Real 0))
    = Real (R_sqrt.sqrt (u * u + v * v - a * a)).
Proof.
  intros Hout. unfold KSr_closure, lit_frac.
  cbn [x1 x2 x3 Num.mul Num.add Num.sub lift2].
  set (k := (1 / 2 * (u * u + v * v + 0 * 0 - a * a))%R).
  assert (0 <= k)%R as Hk by (subst k; lra).
  rewrite sqrt_real by nra.
  replace (k * k + a * a * (0 * 0))%R with (k * k)%R by lra.
  rewrite sqrt_square by done.
  cbn [Num.add lift2]. rewrite sqrt_real by lra.
  do 2 f_equal. subst k. lra.
Qed.

(** C7, as the code has it.  In a session of spin [x] and charge [y] with
    [x² + y² <= 1], at a position of the equatorial plane at the distance
    [rho] from the axis, [KSr] returns [sqrt(rho² - x²)] when
    [rho >= |x|]; so it returns the horizon radius
    [1 + sqrt(1 - x² - y²)] where [rho² = reh² + x²], which is [rho = reh]
    only for spin 0. *)
Theorem KSr_on_equatorial_plane `{Collaborators}
    (x y u v : R) (t : number) (hp : bool) (dt : dtype) (kw : dict) (cs : list call) :
  (x * x + y * y <= 1)%R →
  let self := run cs (init (Real x) (Real y) hp dt kw).1 in
  let r_h := (1 + R_sqrt.sqrt (1 - x * x - y * y))%R in
  let p := Vec4 t (Real u) (Real v) (Real 0) in
  ((x * x <= u * u + v * v)%R →
     KSr self p = Real (R_sqrt.sqrt (u * u + v * v - x * x)))
  ∧ ((u * u + v * v = r_h * r_h + x * x)%R → KSr self p = Real r_h)
  ∧ (x = 0%R → (u * u + v * v = r_h * r_h)%R → KSr self p = Real r_h).
Proof.
  intros Hxy self r_h p.
  assert (KSr self = KSr_closure (Real (x * x))) as ->.
  { subst self. by destruct (run_geometry cs (init (Real x) (Real y) hp dt kw).1)
      as (_ & _ & _ & _ & _ & -> & _). }
  assert (0 <= R_sqrt.sqrt (1 - x * x - y * y))%R as Hs by apply sqrt_pos.
  assert (0 <= r_h)%R as Hr by (subst r_h; lra).
  split; [|split].
  - apply KSr_equatorial.
  - intros Huv. subst p. rewrite KSr_equatorial by nra.
    rewrite Huv. replace (r_h * r_h + x * x - x * x)%R with (r_h * r_h)%R by lra.
    by rewrite sqrt_square.
  - intros -> Huv. subst p. replace (Real (0 * 0)) with (Real (0 * 0)%R) by done.
    rewrite KSr_equatorial by nra.
    rewrite Huv. replace (r_h * r_h - 0 * 0)%R with (r_h * r_h)%R by lra.
    by rewrite sqrt_square.
Qed.

(** Spin 3/5 without charge: the horizon radius is 9/5, reached on the
    equatorial plane at the distance [sqrt(81/25 + 9/25)] from the axis. *)
Lemma KSr_on_equatorial_plane_witness :
  KSr (run [] (init (H := Standin.collaborators) (Real (3/5)) (Real 0) false float32 ∅).1)
      (Vec4 (lit 0) (Real (R_sqrt.sqrt (18/5))) (Real 0) (Real 0))
    = Real (1 + R_sqrt.sqrt (1 - 3/5 * (3/5) - 0 * 0)).
Proof.
  assert (R_sqrt.sqrt (1 - 3/5 * (3/5) - 0 * 0) = 4/5)%R as E.
  { replace (1 - 3/5 * (3/5) - 0 * 0)%R with (4/5 * (4/5))%R by lra.
    apply sqrt_square. lra. }
  assert (3/5 * (3/5) + 0 * 0 <= 1)%R as Hxy by lra.
  destruct (KSr_on_equatorial_plane (H := Standin.collaborators)
              (3/5) 0 (R_sqrt.sqrt (18/5)) 0 (lit 0) false float32 ∅ [] Hxy)
    as (_ & W & _).
  apply W. rewrite sqrt_sqrt by lra. rewrite E. lra.
Defined.

(** C7 fails as stated: at spin 3/5 without charge the reported horizon
    radius is 9/5, and at the position [(0, 9/5, 0, 0)] of the equatorial
    plane [KSr] returns [sqrt(72/25)], further than 1/10 from 9/5. *)
Lemma KSr_at_horizon_radius_counterexample :
  let s0 := init (H := Standin.collaborators) (Real (3/5)) (Real 0) false float32 ∅ in
  (3/5 * (3/5) + 0 * 0 <= 1)%R
  ∧ s0.2 = [Radius_of_outer_event_horizon (Real (9/5))]
  ∧ ¬ close_to (1/10)
        (KSr s0.1 (Vec4 (lit 0) (Real (9/5)) (Real 0) (Real 0)))
        (Real (1 + R_sqrt.sqrt (1 - 3/5 * (3/5) - 0 * 0))).
Proof.
  assert (R_sqrt.sqrt (1 - 3/5 * (3/5) - 0 * 0) = 4/5)%R as E.
  { replace (1 - 3/5 * (3/5) - 0 * 0)%R with (4/5 * (4/5))%R by lra.
    apply sqrt_square. lra. }
  cbv zeta. split; [lra|]. split.
  - rewrite init_printed. rewrite !decide_True by lra.
    rewrite E. do 3 f_equal. lra.
  - change (KSr (init (H := Standin.collaborators) (Real (3/5)) (Real 0) false float32 ∅).1)
      with (KSr_closure (Real (3/5 * (3/5)))).
    rewrite KSr_equatorial by lra. rewrite E. unfold close_to.
    assert (R_sqrt.sqrt (9/5 * (9/5) + 0 * 0 - 3/5 * (3/5)) < 17/10)%R as Hlt.
    { replace (17/10)%R with (R_sqrt.sqrt (17/10 * (17/10))) by (apply sqrt_square; lra).
      apply sqrt_lt_1_alt. lra. }
    intros Hclose. unfold Rabs in Hclose.
    destruct (Rcase_abs _) in Hclose; lra.
Qed.

(** ** Defaults under the keyword arguments (C8, C10) *)

Lemma merge_dict_keeps_and_fills (defaults old : dict) :
  keeps_and_fills defaults old (merge_dict defaults old).
Proof.
  unfold merge_dict. split.
  - intros k w Hk. by apply lookup_union_Some_l.
  - intros k Hk. by rewrite lookup_union_r.
Qed.

(** C8. Each of [set_particle], [set_photon] and [set_sphorbit] returns,
    puts in [self._ic] the pair of the position and the constrained
    velocity it built, and leaves in [self.kwargs] what was there, with
    ['L'] at 100 and ['h'] at 1 where the key was absent. *)
Theorem ray_builders_stage_and_merge `{Collaborators}
    (self : GRRT) (x v : vec4) (r : number) :
  let staged (run : result unit * GRRT * list message) (pair : state) :=
    outcome run = Ok tt ∧
    _ic (after run) = Some (scalar pair) ∧
    keeps_and_fills ray_defaults (kwargs self) (kwargs (after run)) in
  staged (set_particle x v self) (x, Normalize (metric self) x v)
  ∧ staged (set_photon x v self) (x, Nullify (metric self) x v)
  ∧ staged (set_sphorbit r self)
      ((sphorbit (aspin self) r).1,
       Nullify (metric self) (sphorbit (aspin self) r).1 (sphorbit (aspin self) r).2)
  ∧ ray_defaults !! "L" = Some (VNum (lit 100))
  ∧ ray_defaults !! "h" = Some (VNum (lit 1))
  ∧ (∀ k, k ≠ "L" → k ≠ "h" → ray_defaults !! k = None).
Proof.
  cbv zeta. repeat split;
    try apply (proj1 (merge_dict_keeps_and_fills ray_defaults (kwargs self)));
    try apply (proj2 (merge_dict_keeps_and_fills ray_defaults (kwargs self))).
  intros k HL Hh. unfold ray_defaults. by simplify_map_eq.
Qed.

(** A session built with [L=5]: [set_photon] keeps it and adds [h=1]. *)
Lemma ray_builders_stage_and_merge_witness :
  let self := (init (H := Standin.collaborators) (Real 0) (Real 0) false float32
                 {[ "L" := VNum (lit 5) ]}).1 in
  kwargs (after (set_photon Standin.origin Standin.origin self)) !! "L" = Some (VNum (lit 5))
  ∧ kwargs (after (set_photon Standin.origin Standin.origin self)) !! "h" = Some (VNum (lit 1)).
Proof.
  intros self.
  destruct (ray_builders_stage_and_merge (H := Standin.collaborators)
              self Standin.origin Standin.origin (lit 3))
    as (_ & (_ & _ & Hkeep & Hfill) & _ & _ & Hh & _).
  split.
  - apply Hkeep. reflexivity.
  - rewrite Hfill; [exact Hh | reflexivity].
Defined.

(** C10. [set_cam] leaves in [self.kwargs] every key that was there, in
    particular ['L'] and ['h'], whoever put them; ['L'] becomes
    [-2 * r_obs] and ['h'] becomes [0.75 * r_obs] only where the key was
    absent. *)
Theorem set_cam_keeps_given_defaults `{Collaborators}
    (self : GRRT) (r_obs i_obs j_obs : number) :
  let self' := after (set_cam r_obs i_obs j_obs self) in
  keeps_and_fills (cam_defaults r_obs) (kwargs self) (kwargs self')
  ∧ (∀ w, kwargs self !! "L" = Some w → kwargs self' !! "L" = Some w)
  ∧ (∀ w, kwargs self !! "h" = Some w → kwargs self' !! "h" = Some w)
  ∧ (kwargs self !! "L" = None →
       kwargs self' !! "L" = Some (VNum (lit (-2) * r_obs)%num))
  ∧ (kwargs self !! "h" = None →
       kwargs self' !! "h" = Some (VNum (lit_frac 3 4 * r_obs)%num)).
Proof.
  cbv zeta.
  pose proof (merge_dict_keeps_and_fills (cam_defaults r_obs) (kwargs self))
    as [Hkeep Hfill].
  split; [by split|]. split; [intros w; apply Hkeep|].
  split; [intros w; apply Hkeep|]. split; intros Hnone.
  - change (merge_dict (cam_defaults r_obs) (kwargs self) !! "L" =
            Some (VNum (lit (-2) * r_obs)%num)).
    by rewrite Hfill.
  - change (merge_dict (cam_defaults r_obs) (kwargs self) !! "h" =
            Some (VNum (lit_frac 3 4 * r_obs)%num)).
    by rewrite Hfill.
Qed.

(** A session built with [h=2] on which [set_photon] was called:
    [set_cam(1e4)] keeps [L=100] and [h=2]. *)
Lemma set_cam_keeps_given_defaults_witness :
  let self := after (set_photon Standin.origin Standin.origin
                (init (H := Standin.collaborators) (Real 0) (Real 0) false float32
                   {[ "h" := VNum (lit 2) ]}).1) in
  let self' := after (set_cam (lit 10000) (lit 60) (lit 0) self) in
  kwargs self' !! "L" = Some (VNum (lit 100))
  ∧ kwargs self' !! "h" = Some (VNum (lit 2)).
Proof.
  intros self self'.
  destruct (set_cam_keeps_given_defaults (H := Standin.collaborators)
              self (lit 10000) (lit 60) (lit 0)) as (_ & HL & Hh & _).
  split; [apply HL | apply Hh]; reflexivity.
Defined.

(** ** Calling [geode] with nothing to integrate (C5) *)

Section Unprepared.
Context `{Collaborators}.

(** Without a staged batch and without an integrator, [geode] raises and
    leaves the session as it was. *)
Lemma geode_unprepared (self : GRRT) (L N : value) (kw : dict) :
  _ic self = None → _geode self = None →
  raised (outcome (geode L N kw self)) ∧ after (geode L N kw self) = self.
Proof.
  intros Hic Hg. run_method. rewrite Hic.
  unfold getitem.
  destruct (decide (0 < size kw)); cbn [fst snd];
    destruct (is_none L); cbn [fst snd];
    try destruct (kwargs self !! "L") as [w|]; cbn [fst snd];
    rewrite ?Hg; try destruct (has_len _); cbn [fst snd];
    rewrite ?Hg; by cbn.
Qed.

(** As a call of the session, [geode] leaves what [geode] leaves. *)
Lemma step_geode_after (self : GRRT) (L N : value) (kw : dict) :
  after (step self (Call_geode L N kw)) = after (geode L N kw self).
Proof.
  unfold step, after, mbind, M_bind.
  by destruct (geode L N kw self) as [[[ret|e] s'] out].
Qed.

Lemma step_geode_outcome (self : GRRT) (L N : value) (kw : dict) :
  outcome (step self (Call_geode L N kw)) = Ok tt ↔
  ∃ ret, outcome (geode L N kw self) = Ok ret.
Proof.
  unfold step, outcome, mbind, M_bind.
  destruct (geode L N kw self) as [[[ret|e] s'] out]; cbn; split;
    try done; eauto. by intros [? ?].
Qed.

Lemma run_geode_only (cs : list call) (self : GRRT) :
  Forall (λ c, is_set c = false) cs →
  _ic self = None → _geode self = None →
  run cs self = self.
Proof.
  intros Hcs. revert self.
  induction Hcs as [|c cs Hc _ IH]; intros self Hic Hg; [done|].
  destruct c; try done. unfold run in *. cbn [foldl].
  assert (after (step self (Call_geode L N kwargs0)) = self) as ->; [|by apply IH].
  rewrite step_geode_after. by apply geode_unprepared.
Qed.

End Unprepared.

(** C5. On a new session, on which nothing but [geode] was ever called,
    every call of [geode] raises an exception, and leaves the session
    without staged batch and without integrator. *)
Theorem geode_before_any_set_raises `{Collaborators}
    (a q : number) (hp : bool) (dt : dtype) (kw0 : dict)
    (cs : list call) (L N : value) (kw : dict) :
  Forall (λ c, is_set c = false) cs →
  let self := run cs (init a q hp dt kw0).1 in
  _ic self = None ∧ _geode self = None ∧
  raised (outcome (geode L N kw self)) ∧
  after (geode L N kw self) = self.
Proof.
  intros Hcs self.
  assert (self = (init a q hp dt kw0).1) as ->
    by (by apply run_geode_only).
  split; [done|]. split; [done|]. by apply geode_unprepared.
Qed.

(** A new session of spin 0 with [L=5]: [geode()] raises, also after a
    first call [geode(3)] that raised. *)
Lemma geode_before_any_set_raises_witness :
  let s0 := (init (H := Standin.collaborators) (Real 0) (Real 0) false float32
               {[ "L" := VNum (lit 5) ]}).1 in
  raised (outcome (geode VNone VNone ∅ (run [Call_geode (VNum (lit 3)) VNone ∅] s0))).
Proof.
  apply (geode_before_any_set_raises (H := Standin.collaborators)
           (Real 0) (Real 0) false float32 {[ "L" := VNum (lit 5) ]}
           [Call_geode (VNum (lit 3)) VNone ∅] VNone VNone ∅).
  repeat constructor.
Defined.

(** ** The staged batch and the integrator (C9) *)

Section Lifecycle.
Context `{Collaborators}.

(** A call of [geode] that returns leaves no staged batch and an
    integrator. *)
Lemma geode_returns (self : GRRT) (L N : value) (kw : dict) ret :
  outcome (geode L N kw self) = Ok ret →
  _ic (after (geode L N kw self)) = None ∧
  is_Some (_geode (after (geode L N kw self))).
Proof.
  run_method. unfold getitem.
  repeat (case_scrutinee; simplify_eq/=); try done; intros _; eauto.
Qed.

(** A [set_*] call that returns stages a batch, unless it is [set_cam],
    and keeps the integrator. *)
Lemma set_returns (self : GRRT) (c : call) :
  is_set c = true →
  outcome (step self c) = Ok tt →
  (match c with Set_cam _ _ _ => True | _ => pending (after (step self c)) end)
  ∧ _geode (after (step self c)) = _geode self.
Proof.
  unfold pending. destruct c; try done; intros _; run_method;
    repeat (case_scrutinee; simplify_eq/=); try done; intros _; eauto.
Qed.

(** A [set_*] call, whether it returns or raises, keeps the integrator and
    never removes a staged batch. *)
Lemma set_keeps (self : GRRT) (c : call) :
  is_set c = true →
  _geode (after (step self c)) = _geode self
  ∧ (pending self → pending (after (step self c))).
Proof.
  unfold pending. destruct c; try done; intros _; run_method; unfold stack2, xmap;
    repeat (case_scrutinee; simplify_eq/=); split; try done; eauto.
Qed.

Lemma run_sets_keep (cs : list call) (self : GRRT) :
  Forall (λ c, is_set c = true) cs →
  _geode (run cs self) = _geode self
  ∧ (pending self → pending (run cs self)).
Proof.
  intros Hcs. revert self.
  induction Hcs as [|c cs Hc _ IH]; intros self; [done|].
  destruct (set_keeps self c Hc) as [Hg Hp].
  destruct (IH (after (step self c))) as [Hg' Hp'].
  change (run (c :: cs) self) with (run cs (after (step self c))).
  split; [by rewrite Hg', Hg | by intros ?; apply Hp', Hp].
Qed.

End Lifecycle.

(** C9, as the code has it.  A new session has neither staged batch nor
    integrator.  A call of [geode] that returns leaves no staged batch and
    an integrator, so exactly one of the two is there right after it.
    From then on, through any [set_*] calls, whether they return or raise,
    the integrator stays; exactly one of the two is there as long as no
    batch is staged, and once a [set_*] call has staged a batch both are
    there, until the next call of [geode]. *)
Theorem batch_and_integrator_after_geode `{Collaborators} :
  (∀ a q hp dt (kw0 : dict),
     _ic (init a q hp dt kw0).1 = None ∧ _geode (init a q hp dt kw0).1 = None)
  ∧ (∀ (self : GRRT) L N (kw : dict) ret,
       outcome (geode L N kw self) = Ok ret →
       _ic (after (geode L N kw self)) = None ∧
       integrating (after (geode L N kw self)) ∧
       exactly_one (after (geode L N kw self)))
  ∧ (∀ (self : GRRT) (cs : list call),
       integrating self →
       Forall (λ c, is_set c = true) cs →
       integrating (run cs self)
       ∧ (exactly_one (run cs self) ↔ ¬ pending (run cs self)))
  ∧ (∀ (self : GRRT) (c : call) (cs : list call),
       integrating self →
       stages c = true →
       outcome (step self c) = Ok tt →
       Forall (λ c, is_set c = true) cs →
       pending (run cs (after (step self c)))
       ∧ integrating (run cs (after (step self c)))
       ∧ ¬ exactly_one (run cs (after (step self c)))).
Proof.
  split; [done|]. split; [|split].
  - intros self L N kw ret Hret.
    destruct (geode_returns self L N kw ret Hret) as [Hic Hg].
    split; [done|]. split; [done|].
    right. split; [|done]. unfold pending. rewrite Hic. by intros [? ?].
  - intros self cs Hint Hcs.
    destruct (run_sets_keep cs self Hcs) as [Hg _].
    assert (integrating (run cs self)) as Hint'
      by (unfold integrating; by rewrite Hg).
    split; [done|]. split.
    + intros [[_ Hno]|[Hno _]]; [by destruct Hno | done].
    + intros Hno. by right.
  - intros self c cs Hint Hst Hret Hcs.
    assert (is_set c = true) as Hset by (by destruct c).
    destruct (set_returns self c Hset Hret) as [Hpend Hg].
    assert (pending (after (step self c))) as Hpend' by (by destruct c).
    destruct (run_sets_keep cs (after (step self c)) Hcs) as [Hg' Hp'].
    assert (integrating (run cs (after (step self c)))) as Hint'
      by (unfold integrating; by rewrite Hg', Hg).
    split; [by apply Hp'|]. split; [done|].
    intros [[_ Hno]|[Hno _]]; [by apply Hno | by apply Hno, Hp'].
Qed.

(** A photon is staged, [geode()] is called and returns, a photon is
    staged again, then the camera is set and [set_pixels] raises on arrays
    of two shapes: the integrator of the first call and the staged photon
    are still there. *)
Lemma batch_and_integrator_after_geode_witness :
  let s0 := (init (H := Standin.collaborators) (Real 0) (Real 0) false float32 ∅).1 in
  let s1 := after (set_photon Standin.origin Standin.origin s0) in
  let s2 := after (geode VNone VNone ∅ s1) in
  let s3 := run [Set_cam (lit 10000) (lit 60) (lit 0);
                 Set_pixels (NdArray [1] [lit 1]) (NdArray [2] [lit 1; lit 2])]
                (after (step s2 (Set_photon Standin.origin Standin.origin))) in
  (_ic s2 = None ∧ integrating s2 ∧ exactly_one s2)
  ∧ (pending s3 ∧ integrating s3 ∧ ¬ exactly_one s3).
Proof.
  intros s0 s1 s2 s3.
  destruct (batch_and_integrator_after_geode (H := Standin.collaborators))
    as (_ & Hgeode & _ & Hset).
  assert (∃ ret, outcome (geode VNone VNone ∅ s1) = Ok ret) as [ret Hret]
    by (eexists; reflexivity).
  split.
  - exact (Hgeode s1 VNone VNone ∅ ret Hret).
  - apply Hset; [|reflexivity|reflexivity|repeat constructor].
    exact (proj1 (proj2 (Hgeode s1 VNone VNone ∅ ret Hret))).
Defined.

(** C9 fails as stated: a photon is staged, [geode()] returns, and a
    photon is staged again; from then on, until the next call of [geode],
    the session has a staged batch and an integrator, not exactly one of
    the two. *)
Lemma exactly_one_after_first_geode_counterexample :
  let s0 := (init (H := Standin.collaborators) (Real 0) (Real 0) false float32 ∅).1 in
  let s1 := after (step s0 (Set_photon Standin.origin Standin.origin)) in
  let s2 := after (step s1 (Call_geode VNone VNone ∅)) in
  let s3 := after (step s2 (Set_photon Standin.origin Standin.origin)) in
  outcome (step s1 (Call_geode VNone VNone ∅)) = Ok tt
  ∧ outcome (step s2 (Set_photon Standin.origin Standin.origin)) = Ok tt
  ∧ ¬ exactly_one s3.
Proof.
  cbv zeta. split; [reflexivity|]. split; [reflexivity|].
  intros [[_ Hno]|[Hno _]]; apply Hno; eexists; reflexivity.
Qed.

(** ** Extending and sampling (C4) *)




(** ** The batch of [set_pixels] (C6) *)

Section Pixels.
Context `{Collaborators}.

Lemma take_zip {A B} (idx : list nat) (la : list A) (lb : list B) :
  length la = length lb →
  omap (λ k, zip la lb !! k) idx
    = zip (omap (λ k, la !! k) idx) (omap (λ k, lb !! k) idx).
Proof.
  intros Hlen. induction idx as [|k idx IH]; [done|]. cbn [omap list_omap].
  destruct (la !! k) as [x|] eqn:Ha.
  - destruct (lookup_lt_is_Some_2 lb k) as [y Hb].
    { rewrite <- Hlen. by eapply lookup_lt_Some. }
    rewrite Hb. erewrite (proj2 (lookup_zip_with_Some pair la lb k (x, y)));
      [| by exists x, y]. cbn. by rewrite IH.
  - assert (lb !! k = None) as Hb.
    { apply lookup_ge_None. rewrite <- Hlen. by apply lookup_ge_None. }
    rewrite Hb.
    assert (zip la lb !! k = None) as ->; [|done].
    apply lookup_ge_None. rewrite length_zip_with.
    apply lookup_ge_None in Ha. lia.
Qed.

Lemma take_fmap {A B} (f : A → B) (idx : list nat) (l : list A) :
  omap (λ k, (f <$> l) !! k) idx = f <$> omap (λ k, l !! k) idx.
Proof.
  induction idx as [|k idx IH]; [done|]. cbn [omap list_omap].
  rewrite list_lookup_fmap. destruct (l !! k); cbn; by rewrite IH.
Qed.

Lemma take_length {A} (idx : list nat) (l : list A) :
  idx ≡ₚ seq 0 (length l) →
  length (omap (λ k, l !! k) idx) = length l.
Proof.
  intros Hp.
  assert (Forall (λ k, k < length l) idx) as Hall.
  { rewrite Hp. apply Forall_forall. intros k Hk. apply elem_of_seq in Hk. lia. }
  assert (length idx = length l) as <- by (by rewrite Hp, length_seq).
  clear Hp.
  induction Hall as [|k idx Hk _ IH]; [done|]. cbn [omap list_omap].
  destruct (lookup_lt_is_Some_2 l k Hk) as [x ->]. cbn. by rewrite IH.
Qed.

(** With the camera set and arrays of one shape without an axis of size
    0, [set_pixels] stages the element-wise batch. *)
Lemma set_pixels_ok (self : GRRT) (r : number * number * number) (a b : ndarray number) :
  rij self = Some r →
  shape a = shape b →
  0 ∉ shape a →
  set_pixels a b self =
    (Ok tt,
     with_ic (Some (map_batch (ic self r) (NdArray (shape a) (zip (data a) (data b))))) self,
     []).
Proof.
  intros Hr Hsh H0. run_method. unfold stack2, xmap. rewrite decide_True by done.
  cbn [fst snd shape]. rewrite Hr. cbn [shape]. by rewrite decide_False by done.
Qed.

(** An axis of size 0 makes [set_pixels] raise, with the session as it
    was; so does a missing camera or a difference of shapes. *)
Lemma set_pixels_empty (self : GRRT) (a b : ndarray number) :
  0 ∈ shape a →
  raised (outcome (set_pixels a b self)) ∧ after (set_pixels a b self) = self.
Proof.
  intros H0. run_method. unfold stack2, xmap.
  destruct (decide (shape a = shape b)); cbn [fst snd shape]; [|done].
  destruct (rij self); cbn [fst snd shape]; [|done].
  by rewrite decide_True by done.
Qed.

End Pixels.

(** C6, as the code has it.  With the camera set, for arrays [a] and [b]
    of one shape that has no axis of size 0, [set_pixels] returns and
    stages a batch of the shape of [a] whose element at each position is
    the ray that [cam] and [nullify] build from [a] and [b] at that
    position and from the camera alone; permuting the pixels of [a] and
    [b] permutes the staged batch the same way.  With an axis of size 0
    [set_pixels] raises and stages nothing. *)
Theorem set_pixels_maps_each_pixel `{Collaborators}
    (self : GRRT) (r : number * number * number) (a b : ndarray number) :
  rij self = Some r →
  shape a = shape b →
  well_formed a →
  well_formed b →
  (0 ∉ shape a →
   ∃ out : ndarray state,
     set_pixels a b self = (Ok tt, with_ic (Some out) self, [])
     ∧ shape out = shape a
     ∧ well_formed out
     ∧ (∀ k ak bk,
          data a !! k = Some ak → data b !! k = Some bk →
          data out !! k =
            Some ((cam r (ak, bk)).1,
                  Nullify (metric self) (cam r (ak, bk)).1 (cam r (ak, bk)).2))
     ∧ (∀ idx,
          idx ≡ₚ seq 0 (length (data a)) →
          well_formed (take idx a) ∧ well_formed (take idx b)
          ∧ set_pixels (take idx a) (take idx b) self
              = (Ok tt, with_ic (Some (take idx out)) self, [])))
  ∧ (0 ∈ shape a →
     raised (outcome (set_pixels a b self))
     ∧ after (set_pixels a b self) = self).
Proof.
  intros Hrij Hshape Ha Hb.
  assert (length (data a) = length (data b)) as Hlen.
  { unfold well_formed in *. by rewrite Ha, Hb, Hshape. }
  split; [|by apply set_pixels_empty].
  intros H0.
  exists (map_batch (ic self r) (NdArray (shape a) (zip (data a) (data b)))).
  split; [|split; [|split; [|split]]].
  - by apply set_pixels_ok.
  - done.
  - unfold well_formed, map_batch in *. cbn [data shape].
    rewrite length_fmap, length_zip_with. lia.
  - intros k ak bk Hak Hbk. unfold map_batch. cbn [data].
    rewrite list_lookup_fmap.
    erewrite (proj2 (lookup_zip_with_Some pair (data a) (data b) k (ak, bk)));
      [done | by exists ak, bk].
  - intros idx Hp. split; [|split].
    + unfold well_formed, take. cbn [shape data]. by rewrite take_length.
    + unfold well_formed, take. cbn [shape data].
      rewrite take_length by (by rewrite <- Hlen). done.
    + rewrite (set_pixels_ok self r (take idx a) (take idx b) Hrij Hshape H0).
      unfold take, map_batch. cbn [shape data].
      by rewrite take_fmap, take_zip.
Qed.

(** A line of two pixels, with the camera set, and the same line with the
    two pixels exchanged. *)
Lemma set_pixels_maps_each_pixel_witness :
  let self := after (set_cam (lit 10000) (lit 60) (lit 0)
                (init (H := Standin.collaborators) (Real 0) (Real 0) false float32 ∅).1) in
  let a := NdArray [2] [lit 1; lit 2] in
  let b := NdArray [2] [lit 3; lit 4] in
  ∃ out : ndarray state,
    set_pixels a b self = (Ok tt, with_ic (Some out) self, [])
    ∧ shape out = [2]
    ∧ set_pixels (take [1; 0] a) (take [1; 0] b) self
        = (Ok tt, with_ic (Some (take [1; 0] out)) self, []).
Proof.
  intros self a b.
  assert (0 ∉ shape a) as H0 by (by intros ?%list_elem_of_singleton).
  destruct (set_pixels_maps_each_pixel (H := Standin.collaborators) self
              (lit 10000, radians (lit 60), radians (lit 0)) a b
              eq_refl eq_refl eq_refl eq_refl)
    as [Hmap _].
  destruct (Hmap H0) as (out & Hrun & Hshape & _ & _ & Htake).
  exists out. split; [exact Hrun|]. split; [exact Hshape|].
  apply Htake. apply Permutation_swap.
Defined.

(** C6 fails as stated: with the camera set, for the two empty arrays of
    shape [[0]], which have one shape, [set_pixels] raises and stages no
    batch. *)
Lemma set_pixels_of_empty_arrays_counterexample :
  let self := after (set_cam (lit 10000) (lit 60) (lit 0)
                (init (H := Standin.collaborators) (Real 0) (Real 0) false float32 ∅).1) in
  let a : ndarray number := NdArray [0] [] in
  shape a = shape a ∧ well_formed a
  ∧ outcome (set_pixels a a self) = Raise (ZeroDivisionError "xmap")
  ∧ _ic (after (set_pixels a a self)) = None.
Proof. cbv zeta. repeat split. Qed.

(** * Further properties of the session *)

(** ** The distance to the ring and the horizon radius *)

(** At real coordinates [KSd] is a real number [d >= 0], and it is 0
    exactly on the ring [x1² + x2² = a², x3 = 0]. *)
Theorem KSd_vanishes_on_the_ring `{Collaborators}
    (a q u v z : R) (t : number) (hp : bool) (dt : dtype) (kw : dict) (cs : list call) :
  ∃ d : R,
    KSd (run cs (init (Real a) (Real q) hp dt kw).1) (Vec4 t (Real u) (Real v) (Real z))
      = Real d
    ∧ (0 <= d)%R
    ∧ (d = 0%R ↔ (u * u + v * v = a * a)%R ∧ z = 0%R).
Proof.
  destruct (run_geometry cs (init (Real a) (Real q) hp dt kw).1)
    as (_ & _ & _ & _ & _ & _ & ->).
  cbn [init fst KSd]. unfold KSd_closure.
  cbn [x1 x2 x3 Num.mul Num.add Num.sub Num.abs lift2].
  rewrite sqrt_real by nra. cbn [Num.mul Num.add Num.sub lift2].
  set (rho := R_sqrt.sqrt (u * u + v * v)).
  assert (0 <= rho)%R as Hrho by apply sqrt_pos.
  assert (rho * rho = u * u + v * v)%R as Hrr by (apply sqrt_sqrt; nra).
  set (dR := (rho - Rabs a)%R).
  assert (0 <= Rabs a)%R as Ha by apply Rabs_pos.
  assert (Rabs a * Rabs a = a * a)%R as Haa.
  { unfold Rabs. destruct (Rcase_abs a); lra. }
  rewrite sqrt_real by nra.
  set (w := (dR * dR + z * z)%R).
  assert (0 <= w)%R as Hw by (subst w; nra).
  exists (R_sqrt.sqrt w). split; [done|]. split; [apply sqrt_pos|].
  split.
  - intros Hd. apply sqrt_eq_0 in Hd; [|done].
    assert (dR = 0 ∧ z = 0)%R as [HdR Hz] by (subst w; split; nra).
    split; [|done]. subst dR. nra.
  - intros [Huv ->].
    assert (rho = Rabs a) as Heq by nra.
    subst w dR. rewrite Heq.
    replace ((Rabs a - Rabs a) * (Rabs a - Rabs a) + 0 * 0)%R with 0%R by lra.
    apply sqrt_0.
Qed.

(** The horizon radius kept by a session is not-a-number or a real
    number between 1 and 2, for every spin and charge, not-a-number
    included; it is a number only without the horizon-penetrating flag. *)
Theorem reh_is_nan_or_between_1_and_2 `{Collaborators}
    (a q : number) (hp : bool) (dt : dtype) (kw : dict) (cs : list call) :
  match reh (run cs (init a q hp dt kw).1) with
  | NaN => True
  | Real r => (1 <= r <= 2)%R ∧ hp = false
  end.
Proof.
  rewrite run_reh.
  destruct a as [|x]; [done|]. destruct q as [|y].
  - unfold init, lit. cbn. by destruct (bool_decide _), hp.
  - rewrite init_reh. destruct hp; [done|].
    destruct (decide (x * x + y * y <= 1)%R) as [Hxy|]; [|done].
    split; [|done].
    assert (0 <= R_sqrt.sqrt (1 - x * x - y * y))%R by apply sqrt_pos.
    assert (R_sqrt.sqrt (1 - x * x - y * y) <= 1)%R.
    { rewrite <- sqrt_1 at 2. apply sqrt_le_1_alt. nra. }
    lra.
Qed.

(** ** The keyword arguments that [geode] hands on *)

Section Policies.
Context `{Collaborators}.

(** [if k not in d: d[k] = v]. *)
Lemma lookup_set_if_absent (k j : string) (v : value) (d : dict) :
  (if has_key k d then d else <[k:=v]> d) !! j =
    if decide (j = k) then Some (default v (d !! k)) else d !! j.
Proof.
  unfold has_key. case_bool_decide as Hk; case_decide as Hj; subst.
  - destruct Hk as [w ->]. done.
  - done.
  - apply eq_None_not_Some in Hk. rewrite Hk. apply lookup_insert_eq.
  - by rewrite lookup_insert_ne.
Qed.

Lemma lookup_set_if_absent_neg (k j : string) (v : value) (d : dict) :
  (if negb (has_key k d) then <[k:=v]> d else d) !! j =
    if decide (j = k) then Some (default v (d !! k)) else d !! j.
Proof.
  rewrite <- lookup_set_if_absent. by destruct (has_key k d).
Qed.

(** What [install_policies] leaves under each key. *)
Lemma install_policies_lookup (self : GRRT) (d : dict) (k : string) :
  install_policies self d !! k =
    if decide (k = "fhupper" ∨ k = "fhlower" ∨ k = "eps") then None
    else if decide (k = "hupper") then
      Some (default (VFun (Hupper_KSr (default (VNum (lit_frac 3 4)) (d !! "fhupper"))))
                    (d !! "hupper"))
    else if decide (k = "hlower") then
      match d !! "hlower" with
      | Some f => Some f
      | None =>
          if is_none (default VNone (d !! "fhlower")) then None
          else Some (VFun (Hlower_const (default VNone (d !! "fhlower"))))
      end
    else if decide (k = "filter") then
      Some (default
              (VFun (if isnan (reh self)
                     then Filter_KSd (default (VNum (lit_frac 1 100)) (d !! "eps"))
                     else Filter_KSr (default (VNum (lit_frac 1 100)) (d !! "eps"))))
              (d !! "filter"))
    else d !! k.
Proof.
  unfold install_policies, pop_default.
  set (fh := default (VNum (lit_frac 3 4)) (d !! "fhupper")).
  set (d1 := if has_key "hupper" (delete "fhupper" d) then _ else _).
  assert (∀ j, d1 !! j = if decide (j = "hupper")
                         then Some (default (VFun (Hupper_KSr fh)) (d !! "hupper"))
                         else if decide (j = "fhupper") then None else d !! j) as H1.
  { intros j. subst d1. rewrite lookup_set_if_absent.
    rewrite (lookup_delete_ne d "fhupper" "hupper") by done.
    case_decide; [done|]. rewrite lookup_delete. by case_decide; case_decide; subst. }
  rewrite (H1 "fhlower"). cbn [decide]. rewrite !decide_False by done.
  set (fl := default VNone (d !! "fhlower")).
  set (d2 := if negb (has_key "hlower" (delete "fhlower" d1)) && _ then _ else _).
  assert (∀ j, d2 !! j =
             if decide (j = "hlower")
             then match d !! "hlower" with
                  | Some f => Some f
                  | None => if is_none fl then None else Some (VFun (Hlower_const fl))
                  end
             else if decide (j = "fhlower") then None else d1 !! j) as H2.
  { assert (d1 !! "hlower" = d !! "hlower") as Hh
      by (by rewrite H1, !decide_False by done).
    intros j. subst d2. destruct (is_none fl) eqn:Efl.
    - rewrite andb_false_r. rewrite lookup_delete.
      destruct (decide (j = "hlower")) as [->|Hj1].
      + rewrite decide_False by done. rewrite Hh.
        by destruct (d !! "hlower").
      + destruct (decide ("fhlower" = j)) as [<-|Hj2];
          [by rewrite decide_True | by rewrite decide_False].
    - rewrite andb_true_r. rewrite lookup_set_if_absent_neg.
      rewrite (lookup_delete_ne d1 "fhlower" "hlower") by done.
      rewrite Hh.
      destruct (decide (j = "hlower")) as [->|Hj1];
        [by destruct (d !! "hlower")|].
      rewrite lookup_delete.
      destruct (decide ("fhlower" = j)) as [<-|Hj2];
        [by rewrite decide_True | by rewrite decide_False]. }
  rewrite (H2 "eps"), (H1 "eps"). rewrite !decide_False by done.
  set (eps := default (VNum (lit_frac 1 100)) (d !! "eps")).
  assert ((delete "eps" d2 : dict) !! "filter" = d !! "filter") as Hflt.
  { rewrite lookup_delete_ne by done. rewrite H2, H1.
    by rewrite !decide_False by done. }
  assert ((if has_key "filter" (delete "eps" d2) then delete "eps" d2
           else if isnan (reh self)
                then <["filter":=VFun (Filter_KSd eps)]> (delete "eps" d2)
                else <["filter":=VFun (Filter_KSr eps)]> (delete "eps" d2))
          = (if has_key "filter" (delete "eps" d2) then delete "eps" d2
             else <["filter":=VFun (if isnan (reh self) then Filter_KSd eps
                                    else Filter_KSr eps)]> (delete "eps" d2))) as ->
    by (by destruct (isnan (reh self))).
  rewrite lookup_set_if_absent, Hflt.
  destruct (decide (k = "filter")) as [->|Hk1].
  { rewrite decide_False; [by rewrite !decide_False by done|].
    intros [?|[?|?]]; done. }
  rewrite lookup_delete. destruct (decide ("eps" = k)) as [<-|Hk2].
  { rewrite decide_True; [done | by right; right]. }
  rewrite H2. destruct (decide (k = "hlower")) as [->|Hk3].
  { rewrite decide_False; [by rewrite !decide_False by done|].
    intros [?|[?|?]]; done. }
  destruct (decide (k = "fhlower")) as [->|Hk4].
  { rewrite decide_True; [done | by right; left]. }
  rewrite H1. destruct (decide (k = "hupper")) as [->|Hk5].
  { rewrite decide_False; [done|]. intros [?|[?|?]]; done. }
  destruct (decide (k = "fhupper")) as [->|Hk6].
  { rewrite decide_True; [done | by left]. }
  rewrite decide_False; [done|]. intros [?|[?|?]]; done.
Qed.

Lemma geode_kwargs_inv (self : GRRT) (L : value) (kw m : dict) :
  geode_kwargs self L kw = Ok m →
  m = install_policies self
        (if is_none L then compose_kwargs self kw
         else delete "L" (compose_kwargs self kw)).
Proof.
  unfold geode_kwargs, pop. destruct (is_none L); [by intros [= <-]|].
  destruct (compose_kwargs self kw !! "L"); [by intros [= <-] | done].
Qed.

(** What [geode] hands to the constructor under the keys it reads itself:
    ['fhupper'], ['fhlower'] and ['eps'] are never handed on; ['L'] is
    handed on, as stored, only when the call gives no [L]; every key other
    than these and the three policies is handed on as composed. *)
Theorem geode_hands_on_no_option (self : GRRT) (L : value) (kw m : dict) :
  geode_kwargs self L kw = Ok m →
  m !! "fhupper" = None ∧ m !! "fhlower" = None ∧ m !! "eps" = None
  ∧ (is_none L = false → m !! "L" = None)
  ∧ (is_none L = true → m !! "L" = compose_kwargs self kw !! "L")
  ∧ (∀ k, k ≠ "L" → k ≠ "fhupper" → k ≠ "fhlower" → k ≠ "eps" →
          k ≠ "hupper" → k ≠ "hlower" → k ≠ "filter" →
          m !! k = compose_kwargs self kw !! k).
Proof.
  intros Hm. apply geode_kwargs_inv in Hm. subst m.
  repeat split.
  - rewrite install_policies_lookup. rewrite decide_True; [done | by left].
  - rewrite install_policies_lookup. rewrite decide_True; [done | by right; left].
  - rewrite install_policies_lookup. rewrite decide_True; [done | by right; right].
  - intros ->. rewrite install_policies_lookup.
    rewrite decide_False by (intros [?|[?|?]]; done).
    rewrite !decide_False by done. apply lookup_delete_eq.
  - intros ->. rewrite install_policies_lookup.
    rewrite decide_False by (intros [?|[?|?]]; done).
    by rewrite !decide_False by done.
  - intros k HL H1 H2 H3 H4 H5 H6. rewrite install_policies_lookup.
    rewrite decide_False by (intros [?|[?|?]]; done).
    rewrite !decide_False by done.
    destruct (is_none L); [done | by rewrite lookup_delete_ne].
Qed.

(** A step bound or a filter given by the caller, to the session or to the
    call, reaches the constructor as given. *)
Theorem geode_keeps_given_policies (self : GRRT) (L : value) (kw m : dict)
    (k : string) (f : value) :
  geode_kwargs self L kw = Ok m →
  k = "hupper" ∨ k = "hlower" ∨ k = "filter" →
  compose_kwargs self kw !! k = Some f →
  m !! k = Some f.
Proof.
  intros Hm Hk Hf. apply geode_kwargs_inv in Hm. subst m.
  set (d := if is_none L then _ else _).
  assert (d !! k = Some f) as Hd.
  { subst d. destruct (is_none L); [done|]. rewrite lookup_delete_ne; [done|].
    destruct Hk as [->|[->| ->]]; done. }
  rewrite install_policies_lookup.
  destruct Hk as [->|[->| ->]];
    rewrite decide_False by (intros [?|[?|?]]; done);
    rewrite ?decide_True, ?decide_False by done; by rewrite Hd.
Qed.

(** The keyword arguments are composed with the rightmost winning: what
    the call gives, else what the session holds, else the session's
    [dtype] under ['dtype']. *)
Theorem call_overrides_session (self : GRRT) (kw : dict) (k : string) :
  compose_kwargs self kw !! k =
    match kw !! k with
    | Some v => Some v
    | None =>
        match kwargs self !! k with
        | Some v => Some v
        | None => if decide (k = "dtype") then Some (VDtype (dtype_ self)) else None
        end
    end.
Proof.
  unfold compose_kwargs, merge_dict.
  destruct (kw !! k) as [v|] eqn:Hkw.
  - by apply lookup_union_Some_l.
  - rewrite lookup_union_r by done.
    destruct (kwargs self !! k) as [v|] eqn:Hs.
    + by apply lookup_union_Some_l.
    + rewrite lookup_union_r by done.
      case_decide as Hk; [subst; apply lookup_singleton_eq|].
      by apply lookup_singleton_ne.
Qed.

End Policies.

(** ** The step bounds *)

Section StepBounds.
Context `{Collaborators}.


(** A lower step bound reaches the constructor only on request: without
    ['hlower'] from the caller, ['hlower'] is absent unless ['fhlower'] is
    given and is not [None], and then it is the constant function
    [lambda l, s: fhlower]. *)
Theorem lower_step_bound_only_on_request (self : GRRT) (L : value) (kw m : dict) :
  geode_kwargs self L kw = Ok m →
  compose_kwargs self kw !! "hlower" = None →
  (is_none (default VNone (compose_kwargs self kw !! "fhlower")) = true →
     m !! "hlower" = None)
  ∧ (∀ w, compose_kwargs self kw !! "fhlower" = Some w → is_none w = false →
       m !! "hlower" = Some (VFun (Hlower_const w))
       ∧ ∀ l s, call_closure self (Hlower_const w) l s = Some (Ok w)).
Proof.
  intros Hm Hh. apply geode_kwargs_inv in Hm. subst m.
  set (d := if is_none L then _ else _).
  assert (d !! "hlower" = None ∧
          d !! "fhlower" = compose_kwargs self kw !! "fhlower") as [Hd1 Hd2].
  { subst d. destruct (is_none L); [done|]. by rewrite !lookup_delete_ne by done. }
  assert (install_policies self d !! "hlower" =
          if is_none (default VNone (d !! "fhlower")) then None
          else Some (VFun (Hlower_const (default VNone (d !! "fhlower"))))) as Hlow.
  { rewrite install_policies_lookup.
    rewrite decide_False by (intros [?|[?|?]]; done).
    rewrite decide_False by done. rewrite decide_True by done. by rewrite Hd1. }
  rewrite Hlow, Hd2. split.
  - by intros ->.
  - intros w -> Hw. change (default VNone (Some w)) with w. by rewrite Hw.
Qed.

End StepBounds.

(** ** More on [geode] *)

Section Geode.
Context `{Collaborators}.

(** Without a staged batch, the keyword arguments of a call change
    nothing but the warning: [geode] returns or raises and leaves the
    session as it does without them, and the warning is the only line
    printed, exactly when some keyword argument was given. *)
Theorem geode_ignores_kwargs_without_batch
    (self : GRRT) (L N : value) (kw : dict) :
  _ic self = None →
  outcome (geode L N kw self) = outcome (geode L N ∅ self)
  ∧ after (geode L N kw self) = after (geode L N ∅ self)
  ∧ printed (geode L N kw self)
      = (if decide (0 < size kw) then [Warning_ignore_kwargs] else []).
Proof.
  intros Hic. run_method. rewrite Hic. unfold getitem.
  rewrite map_size_empty.
  destruct (decide (0 < size kw)); cbn [decide fst snd];
    repeat (case_scrutinee; simplify_eq/=); done.
Qed.

(** When the keyword arguments cannot be composed or the constructor
    raises, [geode] raises the same exception and the session is as
    before: the batch is still staged and the former integrator, if any,
    is still there. *)
Theorem failed_constructor_keeps_batch
    (self : GRRT) (ic0 : ndarray state) (L N : value) (kw : dict) (e : exn) :
  _ic self = Some ic0 →
  geode_kwargs self L kw = Raise e
  ∨ (∃ m, geode_kwargs self L kw = Ok m
          ∧ Geode_new (metric self) (lit 0) ic0 m = Raise e) →
  geode L N kw self = (Raise e, self, []).
Proof.
  intros Hic [Hm|(m & Hm & Hnew)]; run_method; rewrite Hic, Hm; [done|].
  by rewrite Hnew.
Qed.

(** The first call after staging, with a number for [L]: the integrator is
    built from the batch, the batch is cleared, and [extend] runs on the
    new integrator; when [extend] raises, the batch is consumed all the
    same and the new integrator stays. *)
Theorem first_geode_builds_then_extends
    (self : GRRT) (ic0 : ndarray state) (l : number) (N : value)
    (kw m : dict) (g : Geode) :
  _ic self = Some ic0 →
  geode_kwargs self (VNum l) kw = Ok m →
  Geode_new (metric self) (lit 0) ic0 m = Ok g →
  geode (VNum l) N kw self =
    match Geode_extend g (VNum l) N with
    | Ok g' => (Ok (Trajectory (Geode_lambdas g') (Geode_states g')),
                with_geode (Some g') (with_ic None (with_geode (Some g) self)), [])
    | Raise e => (Raise e, with_ic None (with_geode (Some g) self), [])
    end.
Proof.
  intros Hic Hm Hnew. run_method. rewrite Hic, Hm. cbn [fst snd].
  rewrite Hnew. cbn [fst snd is_none has_len _geode with_ic with_geode].
  by destruct (Geode_extend g (VNum l) N).
Qed.

(** With [L] omitted and a sequence stored under ['L'], [geode] samples
    the integrator at the stored sequence instead of extending it. *)
Theorem geode_samples_a_stored_sequence
    (self : GRRT) (g : Geode) (N : value) (kw : dict) (ls : list number) :
  _ic self = None →
  _geode self = Some g →
  kwargs self !! "L" = Some (VSeq ls) →
  geode VNone N kw self = geode (VSeq ls) N kw self.
Proof.
  intros Hic Hg HL. run_method. rewrite Hic. unfold getitem.
  destruct (decide (0 < size kw)); cbn [fst snd is_none has_len];
    by rewrite HL.
Qed.

(** In a session reached from its construction by any calls, a staged
    batch comes with a value stored under ['L']: composing the keyword
    arguments of [geode] never fails there. *)
Theorem staged_session_has_L
    (a q : number) (hp : bool) (dt : dtype) (kw0 : dict) (cs : list call)
    (ic0 : ndarray state) (L : value) (kw : dict) :
  _ic (run cs (init a q hp dt kw0).1) = Some ic0 →
  is_Some (kwargs (run cs (init a q hp dt kw0).1) !! "L")
  ∧ ∃ m, geode_kwargs (run cs (init a q hp dt kw0).1) L kw = Ok m.
Proof.
  intros Hic.
  assert (is_Some (kwargs (run cs (init a q hp dt kw0).1) !! "L")) as HL.
  { apply (run_has_L cs _ (init_has_L a q hp dt kw0)). left. by rewrite Hic. }
  split; [done|]. apply geode_kwargs_ok. intros _. by apply compose_kwargs_has_L.
Qed.

(** No call removes or changes a value stored in [self.kwargs]: the
    defaults of the first builder called, and what the caller gave at
    construction, stay for the life of the session. *)
Theorem stored_kwargs_never_change
    (self : GRRT) (cs : list call) (k : string) (v : value) :
  kwargs self !! k = Some v →
  kwargs (run cs self) !! k = Some v.
Proof.
  revert self. induction cs as [|c cs IH]; intros self Hk; [done|].
  apply IH. clear IH. revert Hk.
  destruct c; run_method; repeat (case_scrutinee; simplify_eq/=); try done;
    intros Hk; by apply lookup_union_Some_l.
Qed.

(** No call changes the spin, the charge, the [dtype], the metric, the
    horizon radius or the two closures of a session. *)
Theorem session_geometry_never_changes
    (a q : number) (hp : bool) (dt : dtype) (kw : dict) (cs : list call) :
  let self := run cs (init a q hp dt kw).1 in
  aspin self = a ∧ qcharge self = q ∧ dtype_ self = dt
  ∧ metric self = KerrSchild a q
  ∧ reh self = reh (init a q hp dt kw).1
  ∧ KSr self = KSr_closure (a * a)%num
  ∧ KSd self = KSd_closure a.
Proof.
  cbv zeta.
  destruct (run_geometry cs (init a q hp dt kw).1)
    as (-> & -> & -> & -> & -> & -> & ->).
  done.
Qed.

(** [set_pixels] raises, and leaves the session as it was, when the two
    arrays differ in shape, and when no camera was set. *)
Theorem set_pixels_raises_without_camera_or_shape
    (self : GRRT) (a b : ndarray number) :
  shape a ≠ shape b ∨ rij self = None →
  raised (outcome (set_pixels a b self)) ∧ after (set_pixels a b self) = self.
Proof.
  intros Hbad. run_method. unfold stack2.
  destruct (decide (shape a = shape b)) as [Hsh|Hsh]; cbn [fst snd]; [|done].
  destruct Hbad as [?| ->]; done.
Qed.

End Geode.

(** ** The pixel grids *)

Lemma arange_length (n : nat) : length (arange n) = n.
Proof. unfold arange. by rewrite length_fmap, length_seq. Qed.

Lemma arange_lookup (n k : nat) : k < n → arange n !! k = Some (of_nat k).
Proof.
  intros Hk. unfold arange. rewrite list_lookup_fmap.
  by rewrite lookup_seq_lt.
Qed.

Lemma pixel_centres_length (fov : number) (n : nat) :
  length (pixel_centres fov n) = n.
Proof. unfold pixel_centres. by rewrite length_fmap, arange_length. Qed.

Lemma pixel_centres_lookup (fov : R) (n k : nat) :
  k < n →
  pixel_centres (Real fov) n !! k
    = Some (Real (fov * ((INR k + 1 / 2) / INR n - 1 / 2))).
Proof.
  intros Hk. unfold pixel_centres. rewrite list_lookup_fmap.
  by rewrite arange_lookup.
Qed.

Lemma repeat_rows_length {A} (xs : list A) (m : nat) :
  length (x ← xs; replicate m x) = length xs * m.
Proof.
  induction xs as [|x xs IH]; [done|]. cbn.
  by rewrite length_app, length_replicate, IH.
Qed.

Lemma repeat_rows_lookup {A} (xs : list A) (m i j : nat) (x : A) :
  xs !! i = Some x → j < m →
  (x ← xs; replicate m x) !! (i * m + j) = Some x.
Proof.
  revert i. induction xs as [|y xs IH]; intros i Hi Hj; [done|].
  cbn. destruct i as [|i]; simplify_eq/=.
  - rewrite lookup_app_l by (by rewrite length_replicate).
    by apply lookup_replicate_2.
  - rewrite lookup_app_r by (rewrite length_replicate; lia).
    rewrite length_replicate.
    replace (m + i * m + j - m) with (i * m + j) by lia. by apply IH.
Qed.

Lemma tile_length {A} (ys : list A) (n : nat) :
  length (concat (replicate n ys)) = n * length ys.
Proof.
  induction n as [|n IH]; [done|]. cbn. by rewrite length_app, IH.
Qed.

Lemma tile_lookup {A} (ys : list A) (n i j : nat) (y : A) :
  i < n → ys !! j = Some y →
  concat (replicate n ys) !! (i * length ys + j) = Some y.
Proof.
  revert i. induction n as [|n IH]; intros i Hi Hj; [lia|].
  cbn. destruct i as [|i].
  - rewrite lookup_app_l by (by eapply lookup_lt_Some). done.
  - rewrite lookup_app_r by (cbn; lia).
    replace (S i * length ys + j - length ys) with (i * length ys + j)
      by (cbn; lia).
    apply IH; [lia | done].
Qed.

(** The centres of the pixels are [fov / n] apart, mirror one another
    about 0, and lie strictly inside the field of view. *)
Theorem pixel_centres_tile_the_field_of_view (fov : R) (n k : nat) :
  k < n →
  ∃ c : R,
    pixel_centres (Real fov) n !! k = Some (Real c)
    ∧ (c = fov * ((INR k + 1 / 2) / INR n - 1 / 2))%R
    ∧ (∃ c', pixel_centres (Real fov) n !! (n - 1 - k) = Some (Real c')
             ∧ (c + c' = 0)%R)
    ∧ (S k < n → ∃ c', pixel_centres (Real fov) n !! (S k) = Some (Real c')
                       ∧ (c' - c = fov / INR n)%R)
    ∧ ((0 < fov)%R → (- fov / 2 < c < fov / 2)%R).
Proof.
  intros Hk.
  assert (0 < INR n)%R as Hn by (apply lt_0_INR; lia).
  assert (INR k <= INR n - 1)%R as Hkn.
  { replace 1%R with (INR 1) by done. rewrite <- minus_INR by lia.
    apply le_INR. lia. }
  assert (0 <= INR k)%R as Hk0 by apply pos_INR.
  eexists. split; [by apply pixel_centres_lookup|]. split; [done|].
  split; [|split].
  - eexists. split; [apply pixel_centres_lookup; lia|].
    rewrite !minus_INR by lia. change (INR 1) with 1%R. field. lra.
  - intros HS. eexists. split; [by apply pixel_centres_lookup|].
    rewrite S_INR. field. lra.
  - intros Hfov.
    set (x := ((INR k + 1 / 2) / INR n)%R).
    assert (x * INR n = INR k + 1 / 2)%R as Hx by (subst x; field; lra).
    assert (0 < x < 1)%R as [Hx0 Hx1] by (split; nra).
    split; nra.
Qed.

Lemma sin_cos_on_circle (r t : R) :
  (r * sin t * (r * sin t) + r * cos t * (r * cos t) = r * r)%R.
Proof. pose proof (sin2_cos2 t) as Hsc. unfold Rsqr in Hsc. nra. Qed.

Section GridsFacts.
Context `{Collaborators}.

(** With the camera set and [n > 0], [set_ring(r, n)] returns and stages
    [n] rays, one per point [(r cos(2πk/n), r sin(2πk/n))] of the screen,
    [k < n]; each point lies on the circle of radius [r]. *)
Theorem set_ring_stages_a_circle
    (self : GRRT) (c : number * number * number) (r : R) (n : nat) :
  rij self = Some c →
  0 < n →
  ∃ out : ndarray state,
    set_ring (Real r) n self = (Ok tt, with_ic (Some out) self, [])
    ∧ shape out = [n]
    ∧ well_formed out
    ∧ ∀ k, k < n →
        ∃ a b : R,
          a = (r * cos (2 * PI * INR k / INR n))%R
          ∧ b = (r * sin (2 * PI * INR k / INR n))%R
          ∧ (a * a + b * b = r * r)%R
          ∧ data out !! k = Some (ic self c (Real a, Real b)).
Proof.
  intros Hc Hn. eexists. split; [|split; [|split]].
  - unfold set_ring. apply set_pixels_ok; [done| |].
    + unfold array1. cbn [shape]. by rewrite !length_fmap.
    + unfold array1. cbn [shape]. rewrite !length_fmap, arange_length.
      intros ?%list_elem_of_singleton. lia.
  - cbn [map_batch shape array1]. by rewrite !length_fmap, arange_length.
  - unfold well_formed. cbn [map_batch shape data array1 size_of foldr].
    rewrite !length_fmap, length_zip_with, !length_fmap, arange_length. lia.
  - intros k Hk. do 2 eexists. split; [done|]. split; [done|]. split.
    + rewrite Rplus_comm. apply sin_cos_on_circle.
    + cbn [map_batch data array1]. rewrite list_lookup_fmap.
      erewrite (proj2 (lookup_zip_with_Some pair _ _ k _)); [done|].
      do 2 eexists. split; [done|].
      rewrite !list_lookup_fmap, arange_lookup by done. done.
Qed.

(** With the camera set and [n > 0], [set_image(fov, n, alpha0, beta0)]
    returns and stages an [n] by [n] batch whose ray [(i, j)] starts from
    the screen point [(c_i + alpha0, c_j + beta0)], where [c_k] is the
    centre of pixel [k] across the field of view. *)
Theorem set_image_stages_a_square_grid
    (self : GRRT) (c : number * number * number) (fov alpha0 beta0 : R) (n : nat) :
  rij self = Some c →
  0 < n →
  ∃ out : ndarray state,
    set_image (Real fov) n (Real alpha0) (Real beta0) self
      = (Ok tt, with_ic (Some out) self, [])
    ∧ shape out = [n; n]
    ∧ well_formed out
    ∧ ∀ i j, i < n → j < n →
        data out !! (i * n + j) =
          Some (ic self c
                  (Real (fov * ((INR i + 1 / 2) / INR n - 1 / 2) + alpha0),
                   Real (fov * ((INR j + 1 / 2) / INR n - 1 / 2) + beta0))).
Proof.
  intros Hc Hn. eexists. split; [|split; [|split]].
  - unfold set_image. apply set_pixels_ok; [done|done|].
    cbn [meshgrid_ij fst shape]. rewrite !length_fmap, pixel_centres_length.
    intros Hin. apply elem_of_cons in Hin as [?|Hin]; [lia|].
    apply list_elem_of_singleton in Hin. lia.
  - cbn [map_batch shape meshgrid_ij fst].
    by rewrite !length_fmap, pixel_centres_length.
  - unfold well_formed. cbn [map_batch shape data meshgrid_ij fst snd size_of foldr].
    rewrite !length_fmap, length_zip_with, repeat_rows_length, tile_length.
    rewrite !length_fmap, pixel_centres_length. lia.
  - intros i j Hi Hj. cbn [map_batch data meshgrid_ij fst snd].
    rewrite list_lookup_fmap.
    erewrite (proj2 (lookup_zip_with_Some pair _ _ (i * n + j) _)); [done|].
    do 2 eexists. split; [done|]. split.
    + rewrite length_fmap, pixel_centres_length.
      apply repeat_rows_lookup; [|done].
      by rewrite list_lookup_fmap, pixel_centres_lookup.
    + rewrite length_fmap, pixel_centres_length.
      pose proof (tile_lookup ((λ x, x + Real beta0)%num <$> pixel_centres (Real fov) n)
                    n i j) as Ht.
      rewrite length_fmap, pixel_centres_length in Ht. apply Ht; [done|].
      by rewrite list_lookup_fmap, pixel_centres_lookup.
Qed.

(** With the camera set and [n > 0], [set_axis(fov, n, PA, alpha0)]
    returns and stages [n] rays along a line of the screen: ray [k] starts
    from [(r_k sin(PA π/180), r_k cos(PA π/180))] with
    [r_k = c_k + alpha0], at the distance [|r_k|] from the centre of the
    screen. *)
Theorem set_axis_stages_a_line
    (self : GRRT) (c : number * number * number) (fov PA alpha0 : R) (n : nat) :
  rij self = Some c →
  0 < n →
  ∃ out : ndarray state,
    set_axis (Real fov) n (Real PA) (Real alpha0) self
      = (Ok tt, with_ic (Some out) self, [])
    ∧ shape out = [n]
    ∧ well_formed out
    ∧ ∀ k, k < n →
        ∃ r a b : R,
          r = (fov * ((INR k + 1 / 2) / INR n - 1 / 2) + alpha0)%R
          ∧ a = (r * sin (PA * PI / 180))%R
          ∧ b = (r * cos (PA * PI / 180))%R
          ∧ (a * a + b * b = r * r)%R
          ∧ data out !! k = Some (ic self c (Real a, Real b)).
Proof.
  intros Hc Hn. eexists. split; [|split; [|split]].
  - unfold set_axis. apply set_pixels_ok; [done| |].
    + unfold array1. cbn [shape]. by rewrite !length_fmap.
    + unfold array1. cbn [shape]. rewrite !length_fmap, pixel_centres_length.
      intros ?%list_elem_of_singleton. lia.
  - cbn [map_batch shape array1]. by rewrite !length_fmap, pixel_centres_length.
  - unfold well_formed. cbn [map_batch shape data array1 size_of foldr].
    rewrite !length_fmap, length_zip_with, !length_fmap, pixel_centres_length. lia.
  - intros k Hk. do 3 eexists. split; [done|]. split; [done|]. split; [done|]. split.
    + apply sin_cos_on_circle.
    + cbn [map_batch data array1]. rewrite list_lookup_fmap.
      erewrite (proj2 (lookup_zip_with_Some pair _ _ k _)); [done|].
      do 2 eexists. split; [done|].
      rewrite !list_lookup_fmap, pixel_centres_lookup by done. done.
Qed.

(** Without a camera, [set_image], [set_axis] and [set_ring] raise and
    leave the session as it was, whatever the grid. *)
Theorem grids_need_the_camera
    (self : GRRT) (fov PA alpha0 beta0 r : number) (n : nat) :
  rij self = None →
  (raised (outcome (set_image fov n alpha0 beta0 self))
   ∧ after (set_image fov n alpha0 beta0 self) = self)
  ∧ (raised (outcome (set_axis fov n PA alpha0 self))
     ∧ after (set_axis fov n PA alpha0 self) = self)
  ∧ (raised (outcome (set_ring r n self))
     ∧ after (set_ring r n self) = self).
Proof.
  intros Hc. unfold set_image, set_axis, set_ring.
  repeat split; run_method; unfold stack2;
    repeat (case_scrutinee; simplify_eq/=); done.
Qed.

End GridsFacts.

(** ** The further properties at work *)

(** A photon is staged on a session built with [eps=1]; [geode(5, fhupper=1)]
    hands neither ['eps'] nor ['L'] to the constructor, and hands ['h']. *)
Lemma geode_hands_on_no_option_witness :
  let self := after (set_photon Standin.origin Standin.origin
                (init (H := Standin.collaborators) (Real 0) (Real 0) false float32
                   {[ "eps" := VNum (lit 1) ]}).1) in
  ∃ m, geode_kwargs self (VNum (lit 5)) {[ "fhupper" := VNum (lit 1) ]} = Ok m
       ∧ m !! "eps" = None ∧ m !! "L" = None ∧ m !! "h" = Some (VNum (lit 1)).
Proof.
  intros self.
  assert (∃ m, geode_kwargs self (VNum (lit 5)) {[ "fhupper" := VNum (lit 1) ]} = Ok m)
    as [m Hm] by (eexists; reflexivity).
  destruct (geode_hands_on_no_option (H := Standin.collaborators) self _ _ m Hm)
    as (_ & _ & Heps & HL & _ & Hother).
  exists m. split; [exact Hm|]. split; [exact Heps|]. split; [by apply HL|].
  rewrite Hother by done. reflexivity.
Defined.

(** A session built with a filter of the caller: [geode()] hands it on. *)
Lemma geode_keeps_given_policies_witness :
  let self := after (set_photon Standin.origin Standin.origin
                (init (H := Standin.collaborators) (Real 0) (Real 0) false float32
                   {[ "filter" := VFun (User_fn "mine") ]}).1) in
  ∃ m, geode_kwargs self VNone ∅ = Ok m
       ∧ m !! "filter" = Some (VFun (User_fn "mine")).
Proof.
  intros self.
  assert (∃ m, geode_kwargs self VNone ∅ = Ok m) as [m Hm]
    by (eexists; reflexivity).
  exists m. split; [exact Hm|].
  apply (geode_keeps_given_policies (H := Standin.collaborators)
           self VNone ∅ m "filter" _ Hm); [by right; right | reflexivity].
Defined.


(** [geode(fhlower=0.1)] after a photon is staged. *)
Lemma lower_step_bound_only_on_request_witness :
  let self := after (set_photon Standin.origin Standin.origin
                (init (H := Standin.collaborators) (Real 0) (Real 0) false float32 ∅).1) in
  ∃ m, geode_kwargs self VNone {[ "fhlower" := VNum (lit_frac 1 10) ]} = Ok m
       ∧ m !! "hlower" = Some (VFun (Hlower_const (VNum (lit_frac 1 10)))).
Proof.
  intros self.
  assert (∃ m, geode_kwargs self VNone {[ "fhlower" := VNum (lit_frac 1 10) ]} = Ok m)
    as [m Hm] by (eexists; reflexivity).
  exists m. split; [exact Hm|].
  destruct (lower_step_bound_only_on_request (H := Standin.collaborators)
              self VNone _ m Hm eq_refl) as [_ Hgiven].
  apply (Hgiven (VNum (lit_frac 1 10))); reflexivity.
Defined.

(** After a first [geode()], [geode(7, eps=1)] warns and does what
    [geode(7)] does. *)
Lemma geode_ignores_kwargs_without_batch_witness :
  let s1 := after (set_photon Standin.origin Standin.origin
                (init (H := Standin.collaborators) (Real 0) (Real 0) false float32 ∅).1) in
  let s2 := after (geode VNone VNone ∅ s1) in
  outcome (geode (VNum (lit 7)) VNone {[ "eps" := VNum (lit 1) ]} s2)
    = outcome (geode (VNum (lit 7)) VNone ∅ s2)
  ∧ printed (geode (VNum (lit 7)) VNone {[ "eps" := VNum (lit 1) ]} s2)
    = [Warning_ignore_kwargs].
Proof.
  intros s1 s2.
  destruct (geode_ignores_kwargs_without_batch (H := Standin.collaborators)
              s2 (VNum (lit 7)) VNone {[ "eps" := VNum (lit 1) ]} eq_refl)
    as (Hout & _ & Hpr).
  split; [exact Hout | exact Hpr].
Defined.

(** A photon is staged and the constructor raises: the photon stays
    staged. *)
Lemma failed_constructor_keeps_batch_witness :
  let s1 := after (set_photon Standin.origin Standin.origin
                (init (H := Refusing.collaborators) (Real 0) (Real 0) false float32 ∅).1) in
  geode VNone VNone ∅ s1 = (Raise (Failure "Geode"), s1, []).
Proof.
  intros s1.
  apply (failed_constructor_keeps_batch (H := Refusing.collaborators)
           s1 (scalar (Standin.origin, Standin.origin)) VNone VNone ∅);
    [reflexivity|].
  right. eexists. split; reflexivity.
Defined.

(** A photon is staged and [geode(5)] is called. *)
Lemma first_geode_builds_then_extends_witness :
  let s1 := after (set_photon Standin.origin Standin.origin
                (init (H := Standin.collaborators) (Real 0) (Real 0) false float32 ∅).1) in
  _ic (after (geode (VNum (lit 5)) VNone ∅ s1)) = None
  ∧ ∃ ret, outcome (geode (VNum (lit 5)) VNone ∅ s1) = Ok ret.
Proof.
  intros s1.
  assert (∃ m, geode_kwargs s1 (VNum (lit 5)) ∅ = Ok m) as [m Hm]
    by (eexists; reflexivity).
  rewrite (first_geode_builds_then_extends (H := Standin.collaborators)
             s1 (scalar (Standin.origin, Standin.origin)) (lit 5) VNone ∅ m
             (Standin.Record_ [lit 0] [scalar (Standin.origin, Standin.origin)])
             eq_refl Hm eq_refl).
  split; [reflexivity | eexists; reflexivity].
Defined.

(** A session built with [L=[1, 2]]: after a first [geode()], [geode()]
    samples at the stored sequence. *)
Lemma geode_samples_a_stored_sequence_witness :
  let s1 := after (set_photon Standin.origin Standin.origin
                (init (H := Standin.collaborators) (Real 0) (Real 0) false float32
                   {[ "L" := VSeq [lit 1; lit 2] ]}).1) in
  let s2 := after (geode VNone VNone ∅ s1) in
  geode VNone VNone ∅ s2 = geode (VSeq [lit 1; lit 2]) VNone ∅ s2.
Proof.
  intros s1 s2.
  assert (∃ g, _geode s2 = Some g) as [g Hg] by (eexists; reflexivity).
  exact (geode_samples_a_stored_sequence (H := Standin.collaborators)
           s2 g VNone ∅ [lit 1; lit 2] eq_refl Hg eq_refl).
Defined.

(** A new session on which only [set_photon] was called. *)
Lemma staged_session_has_L_witness :
  is_Some (kwargs (run [Set_photon Standin.origin Standin.origin]
                     (init (H := Standin.collaborators) (Real 0) (Real 0) false
                        float32 ∅).1) !! "L").
Proof.
  exact (proj1 (staged_session_has_L (H := Standin.collaborators)
                  (Real 0) (Real 0) false float32 ∅
                  [Set_photon Standin.origin Standin.origin]
                  (scalar (Standin.origin, Standin.origin)) VNone ∅ eq_refl)).
Defined.

(** [set_cam(1e4)] first: ['L'] stays [-2e4] through [set_photon] and
    [geode()]. *)
Lemma stored_kwargs_never_change_witness :
  let self := after (set_cam (lit 10000) (lit 60) (lit 0)
                (init (H := Standin.collaborators) (Real 0) (Real 0) false float32 ∅).1) in
  kwargs (run [Set_photon Standin.origin Standin.origin; Call_geode VNone VNone ∅] self)
    !! "L" = Some (VNum (lit (-2) * lit 10000)%num).
Proof.
  intros self.
  apply (stored_kwargs_never_change (H := Standin.collaborators)). reflexivity.
Defined.

(** A new session: [set_pixels] raises for want of a camera. *)
Lemma set_pixels_raises_without_camera_or_shape_witness :
  raised (outcome (set_pixels (array1 [lit 1]) (array1 [lit 2])
            (init (H := Standin.collaborators) (Real 0) (Real 0) false float32 ∅).1)).
Proof.
  apply (set_pixels_raises_without_camera_or_shape (H := Standin.collaborators)).
  right. reflexivity.
Defined.

(** Four pixels across a field of view of 16: the first centre is -6. *)
Lemma pixel_centres_tile_the_field_of_view_witness :
  ∃ c : R, pixel_centres (Real 16) 4 !! 0 = Some (Real c)
           ∧ (c = 16 * ((INR 0 + 1 / 2) / INR 4 - 1 / 2))%R.
Proof.
  destruct (pixel_centres_tile_the_field_of_view 16 4 0) as (c & Hc & Hv & _);
    [lia|].
  exists c. split; [exact Hc | exact Hv].
Defined.

(** The camera is set; a ring of 8 rays, an image of 4 by 4 rays and a
    line of 4 rays are staged. *)
Lemma set_ring_stages_a_circle_witness :
  let self := after (set_cam (lit 10000) (lit 60) (lit 0)
                (init (H := Standin.collaborators) (Real 0) (Real 0) false float32 ∅).1) in
  ∃ out : ndarray state,
    set_ring (Real (26/5)) 8 self = (Ok tt, with_ic (Some out) self, [])
    ∧ shape out = [8].
Proof.
  intros self.
  destruct (set_ring_stages_a_circle (H := Standin.collaborators)
              self (lit 10000, radians (lit 60), radians (lit 0)) (26/5) 8 eq_refl)
    as (out & Hrun & Hsh & _); [lia|].
  exists out. split; [exact Hrun | exact Hsh].
Defined.

Lemma set_image_stages_a_square_grid_witness :
  let self := after (set_cam (lit 10000) (lit 60) (lit 0)
                (init (H := Standin.collaborators) (Real 0) (Real 0) false float32 ∅).1) in
  ∃ out : ndarray state,
    set_image (Real 16) 4 (Real 0) (Real 0) self = (Ok tt, with_ic (Some out) self, [])
    ∧ shape out = [4; 4].
Proof.
  intros self.
  destruct (set_image_stages_a_square_grid (H := Standin.collaborators)
              self (lit 10000, radians (lit 60), radians (lit 0)) 16 0 0 4 eq_refl)
    as (out & Hrun & Hsh & _); [lia|].
  exists out. split; [exact Hrun | exact Hsh].
Defined.

Lemma set_axis_stages_a_line_witness :
  let self := after (set_cam (lit 10000) (lit 60) (lit 0)
                (init (H := Standin.collaborators) (Real 0) (Real 0) false float32 ∅).1) in
  ∃ out : ndarray state,
    set_axis (Real 16) 4 (Real 90) (Real 0) self = (Ok tt, with_ic (Some out) self, [])
    ∧ shape out = [4].
Proof.
  intros self.
  destruct (set_axis_stages_a_line (H := Standin.collaborators)
              self (lit 10000, radians (lit 60), radians (lit 0)) 16 90 0 4 eq_refl)
    as (out & Hrun & Hsh & _); [lia|].
  exists out. split; [exact Hrun | exact Hsh].
Defined.

(** A new session: [set_ring] raises. *)
Lemma grids_need_the_camera_witness :
  raised (outcome (set_ring (Real (26/5)) 8
            (init (H := Standin.collaborators) (Real 0) (Real 0) false float32 ∅).1)).
Proof.
  destruct (grids_need_the_camera (H := Standin.collaborators)
              (init (H := Standin.collaborators) (Real 0) (Real 0) false float32 ∅).1
              (Real 16) (Real 90) (Real 0) (Real 0) (Real (26/5)) 8 eq_refl)
    as (_ & _ & Hring & _).
  exact Hring.
Defined.
